(** * viz: the top-N selector and the address geocoder of [viz/__main__.py]

    A shallow embedding of [get_top_N], [create_full_address], [get_lat_lon]
    and [find_lat_lon], of the loader, the map, the table and the callbacks,
    together with the pandas, numpy and Python operations they call, and the
    properties the specification states about them.  The calls to
    [logger.info] are left out: they return nothing the functions use. *)

From Stdlib Require Import ZArith QArith.
From stdpp Require Import base option list sorting strings gmap pretty.

Local Open Scope string_scope.
Local Open Scope list_scope.
Local Open Scope Z_scope.

(** * Part I: the program *)

(** ** Data model *)

(** One row of the inspection table, with the columns the program reads.
    A cell that pandas holds as NaN (an ungraded inspection, a missing score,
    date or zip code) is [None].  [read_data_set] calls [pd.read_csv] without
    [parse_dates], so a cell of ['GRADE DATE'] is the text of the file (in
    the city's feed, month/day/year), not a date. *)
Record Row := mkRow {
  CAMIS : Z;
  DBA : string;
  CUISINE_DESCRIPTION : string;
  BUILDING : string;
  STREET : string;
  BORO : string;
  ZIPCODE : option Q;
  GRADE : option string;
  SCORE : option Z;
  GRADE_DATE : option string
}.

(** A DataFrame is the list of its rows in positional order. *)
Abbreviation DataFrame := (list Row).

(** ** The order of the cells of a column *)

(** Python's order on [str]: character by character, a proper prefix first. *)
Definition text_le (s1 s2 : string) : Prop := String.leb s1 s2 = true.

Global Instance text_le_dec : RelDecision text_le.
Proof. intros s1 s2. unfold text_le. apply _. Defined.

Lemma string_compare_refl s : String.compare s s = Eq.
Proof.
  pose proof (String.compare_antisym s s) as H.
  destruct (String.compare s s); done.
Qed.

Lemma text_le_trans s1 s2 s3 : text_le s1 s2 → text_le s2 s3 → text_le s1 s3.
Proof.
  unfold text_le, String.leb. revert s2 s3.
  induction s1 as [|c1 s1 IH]; intros [|c2 s2] [|c3 s3]; simpl; try done.
  unfold Ascii.compare.
  destruct (N.compare_spec (Ascii.N_of_ascii c1) (Ascii.N_of_ascii c2));
    destruct (N.compare_spec (Ascii.N_of_ascii c2) (Ascii.N_of_ascii c3));
    destruct (N.compare_spec (Ascii.N_of_ascii c1) (Ascii.N_of_ascii c3));
    try done; try lia.
  apply IH.
Qed.

Global Instance text_le_po : PartialOrder text_le.
Proof.
  split; [split|].
  - intros s. unfold text_le, String.leb. by rewrite string_compare_refl.
  - intros s1 s2 s3. apply text_le_trans.
  - intros s1 s2. apply String.leb_antisym.
Qed.

Global Instance text_le_total : Total text_le.
Proof. intros s1 s2. apply String.leb_total. Qed.

(** What [sort_values] needs of the cells of the column it sorts by: a total
    order that can be decided.  The scores are numbers, ordered by value; the
    grade dates are text, ordered as text. *)
Class Cell (K : Type) := {
  cell_le : relation K;
  cell_eq_dec :: EqDecision K;
  cell_le_dec :: RelDecision cell_le;
  cell_inhabited :: Inhabited K;
  cell_le_po :: PartialOrder cell_le;
  cell_le_total :: Total cell_le
}.

Global Instance number_cell : Cell Z := {| cell_le := Z.le |}.
Global Instance text_cell : Cell string := {| cell_le := text_le |}.

(** ** The pandas operations used by [get_top_N] *)

(** [xs[indexer]]: positional take. *)
Definition gather {A} (xs : list A) (indexer : list nat) : list A :=
  omap (λ i, xs !! i) indexer.

(** [numpy.ndarray.argsort(kind=...)] on an array without NaN.  pandas calls it
    with its default [kind='quicksort'], whose contract is that the returned
    indices are a rearrangement of [0 .. len-1] that puts the keys in
    ascending order; the order of equal keys is left to the algorithm. *)
Class ArgSort := {
  argsort : ∀ {K} `{Cell K}, list K → list nat;
  argsort_perm {K} `{Cell K} (ks : list K) :
    argsort ks ≡ₚ seq 0 (length ks);
  argsort_sorted {K} `{Cell K} (ks : list K) :
    StronglySorted cell_le (gather ks (argsort ks))
}.

(** A sorting algorithm is stable when the indices of equal keys stay in
    increasing order ([kind='stable'] or ['mergesort']). *)
Definition Stable (AS : ArgSort) : Prop :=
  ∀ K (C : Cell K) (ks : list K) k,
    filter (λ i, ks !! i = Some k) (argsort ks)
    = filter (λ i, ks !! i = Some k) (seq 0 (length ks)).

(** [idx[~mask]] and [np.nonzero(mask)[0]] for [mask = isna(items)]. *)
Definition non_nan_idx {K} (items : list (option K)) : list nat :=
  filter (λ i, is_Some (items !! i ≫= id)) (seq 0 (length items)).

Definition nan_idx {K} `{EqDecision K} (items : list (option K)) : list nat :=
  filter (λ i, items !! i = Some None) (seq 0 (length items)).

Section pandas.
Context {AS : ArgSort} {K : Type} {cell : Cell K}.

(** [pandas.core.sorting.nargsort(items, ascending=..., na_position='last')]:
    the NaN positions are set aside and appended in their original order;
    for a descending sort the rest is reversed before and after the
    ascending [argsort]. *)
Definition nargsort (items : list (option K)) (ascending : bool) : list nat :=
  let non_nans := omap id items in
  let indexer :=
    if ascending then gather (non_nan_idx items) (argsort non_nans)
    else reverse (gather (reverse (non_nan_idx items))
                    (argsort (reverse non_nans))) in
  indexer ++ nan_idx items.

(** [df.sort_values(by=col, ascending=...)] *)
Definition sort_values (by_ : Row → option K) (ascending : bool)
    (df : DataFrame) : DataFrame :=
  gather df (nargsort (by_ <$> df) ascending).
End pandas.

(** [df.drop_duplicates(subset=['CAMIS'], keep='first')]: a row is dropped
    when its identifier was seen in an earlier row. *)
Fixpoint drop_duplicates_from (seen : gset Z) (df : DataFrame) : DataFrame :=
  match df with
  | [] => []
  | r :: df' =>
      if decide (CAMIS r ∈ seen) then drop_duplicates_from seen df'
      else r :: drop_duplicates_from ({[CAMIS r]} ∪ seen) df'
  end.

Definition drop_duplicates (df : DataFrame) : DataFrame :=
  drop_duplicates_from ∅ df.

(** [df.iloc[:N]], a Python slice: a negative stop counts from the end. *)
Definition iloc_upto {A} (N : Z) (df : list A) : list A :=
  if decide (0 ≤ N) then take (Z.to_nat N) df
  else take (Z.to_nat (Z.of_nat (length df) + N)) df.

(** ** [get_top_N] *)

(** The boolean mask of the [.loc] selection:
    [((GRADE == 'A') | (GRADE == 'B')) & (CUISINE DESCRIPTION == cuisine_type)] *)
Definition qualifies (cuisine_type : string) (r : Row) : Prop :=
  (GRADE r = Some "A" ∨ GRADE r = Some "B") ∧ CUISINE_DESCRIPTION r = cuisine_type.

Global Instance qualifies_dec cuisine_type r : Decision (qualifies cuisine_type r).
Proof. unfold qualifies. apply _. Defined.

Section get_top_N.
Context {AS : ArgSort}.

Definition candidates (restos : DataFrame) (cuisine_type : string) : DataFrame :=
  drop_duplicates
    (sort_values GRADE_DATE false
       (filter (qualifies cuisine_type) restos)).

Definition get_top_N (restos : DataFrame) (cuisine_type : string) (N : Z)
    : DataFrame :=
  let top_ten := iloc_upto N (sort_values SCORE true (candidates restos cuisine_type)) in
  top_ten.
End get_top_N.

(** The keyword defaults of [def get_top_N(restos, cuisine_type='Thai', N=10)]. *)
Definition default_cuisine_type : string := "Thai".
Definition default_N : Z := 10.

Definition get_top_N_kw {AS : ArgSort} (restos : DataFrame)
    (cuisine_type : option string) (N : option Z) : DataFrame :=
  get_top_N restos (default default_cuisine_type cuisine_type) (default default_N N).

(** ** The address geocoder *)

(** The Python values that occur in a geocoding response and in a GeoPoint:
    [None], the float NaN ([numpy.nan]), the other floats, strings, lists and
    dicts. *)
#[warnings="-register-all"]
Inductive pyval :=
  | PyNone
  | PyNaN
  | PyFloat (q : Q)
  | PyStr (s : string)
  | PyList (l : list pyval)
  | PyDict (d : gmap string pyval).

(** The exceptions the module can meet. *)
Inductive exn :=
  | ValueError       (* int() of a NaN *)
  | AttributeError   (* .get on a value that is not a dict *)
  | IndexError       (* results[0] on an empty list *)
  | ServiceError     (* the geocoding client failed *)
  | ImportError.     (* iplot where IPython cannot be imported *)

Inductive result (A : Type) :=
  | Ok (a : A)
  | Raise (e : exn).
Arguments Ok {A} a.
Arguments Raise {A} e.

(** Sequencing: an exception ends the computation. *)
Global Instance result_bind : MBind result := λ A B k m,
  match m with
  | Ok a => k a
  | Raise e => Raise e
  end.

(** [int(x)] of a float: truncation toward zero; a NaN raises. *)
Definition py_int (x : option Q) : result Z :=
  match x with
  | Some q => Ok (Qnum q ÷ Z.pos (Qden q))
  | None => Raise ValueError
  end.

(** [d.get(key, default)] *)
Definition py_get (v : pyval) (key : string) (default_ : pyval) : result pyval :=
  match v with
  | PyDict d => Ok (default default_ (d !! key))
  | _ => Raise AttributeError
  end.

(** [results[0]] *)
Definition py_first (results : list pyval) : result pyval :=
  match results with
  | first :: _ => Ok first
  | [] => Raise IndexError
  end.

Definition create_full_address (resto : Row) : result string :=
  zip ← py_int (ZIPCODE resto);
  Ok (BUILDING resto +:+ " " +:+ STREET resto +:+ ", "
      +:+ BORO resto +:+ " " +:+ pretty zip).

(** The dict [get_lat_lon] returns. *)
Record GeoPoint := mkGeoPoint {
  name : string;
  lat : pyval;
  lon : pyval
}.

(** A coordinate that is present is a float other than NaN. *)
Definition is_coordinate (v : pyval) : Prop := ∃ q, v = PyFloat q.

Section geocoder.
(** [gmaps.geocode]: the ranked list of matches for an address, or a failure
    of the client. *)
Variable geocode : string → result (list pyval).

Definition get_lat_lon (resto : Row) : result GeoPoint :=
  address ← create_full_address resto;
  results ← geocode address;
  if decide (0 < length results)%nat then
    first ← py_first results;
    geometry ← py_get first "geometry" (PyDict ∅);
    location ← py_get geometry "location" (PyDict ∅);
    lat ← py_get location "lat" PyNone;
    first' ← py_first results;
    geometry' ← py_get first' "geometry" (PyDict ∅);
    location' ← py_get geometry' "location" (PyDict ∅);
    lon ← py_get location' "lng" PyNone;
    Ok {| name := DBA resto; lat := lat; lon := lon |}
  else
    Ok {| name := DBA resto; lat := PyNaN; lon := PyNaN |}.

(** [find_lat_lon]: [get_lat_lon] applied to each row of the frame; an
    exception in one call ends the whole [apply]. *)
Fixpoint find_lat_lon (top_ten : DataFrame) : result (list GeoPoint) :=
  match top_ten with
  | [] => Ok []
  | resto :: rest =>
      p ← get_lat_lon resto;
      ps ← find_lat_lon rest;
      Ok (p :: ps)
  end.
End geocoder.

(** A response with two matches, and services that answer every address with
    it, with its first match only, with nothing, and with a match without
    coordinates. *)
Definition match_at (la lo : Q) : pyval :=
  PyDict {[ "geometry" :=
    PyDict {[ "location" := PyDict {[ "lat" := PyFloat la; "lng" := PyFloat lo ]} ]} ]}.

Definition two_matches : list pyval :=
  [ match_at (407 # 10) (-740 # 10); match_at (515 # 10) (-1 # 10) ].

Definition example_resto : Row :=
  {| CAMIS := 1; DBA := "THAI HOUSE"; CUISINE_DESCRIPTION := "Thai";
     BUILDING := "12"; STREET := "MAIN ST"; BORO := "QUEENS";
     ZIPCODE := Some (11354 # 1);
     GRADE := Some "A"; SCORE := Some 5; GRADE_DATE := Some "01/01/2023" |}.

(** ** Frames as objects

    In the program a DataFrame is an object, and [DF] is shared by every call.
    The store holds the rows of each frame under its reference.  As in
    pandas, [sort_values] and [drop_duplicates] take the flag [inplace]: with
    [inplace=True] the method replaces the rows of its receiver and returns
    [None]; with the default [inplace=False] it leaves the receiver and
    returns a new object.  [.loc[mask]] with a boolean mask and [.iloc[:N]]
    return new objects.  A computation that raises has no outcome. *)
Definition St (A : Type) : Type := list (list Row) → option (A * list (list Row)).

Global Instance St_ret : MRet St := λ A a h, Some (a, h).

Global Instance St_bind : MBind St := λ A B k m h,
  match m h with
  | Some (a, h') => k a h'
  | None => None
  end.

Definition load (ref : nat) : St DataFrame :=
  λ h, match h !! ref with Some df => Some (df, h) | None => None end.

Definition new_frame (df : DataFrame) : St nat :=
  λ h, Some (length h, h ++ [df]).

Definition update_frame (ref : nat) (df : DataFrame) : St unit :=
  λ h, if decide (ref < length h)%nat then Some ((), <[ref := df]> h) else None.

(** What a method with the flag [inplace] returns: the new object, or [None]
    after the receiver was updated. *)
Definition method (ref : nat) (f : DataFrame → DataFrame) (inplace : bool)
    : St (option nat) :=
  df ← load ref;
  if inplace then _ ← update_frame ref (f df); mret None
  else out ← new_frame (f df); mret (Some out).

(** The receiver of the next method of a chain; a method called on [None]
    raises [AttributeError]. *)
Definition receiver (obj : option nat) : St nat :=
  λ h, match obj with Some ref => Some (ref, h) | None => None end.

Definition loc_obj (ref : nat) (mask : Row → Prop) `{!∀ r, Decision (mask r)}
    : St nat :=
  df ← load ref; new_frame (filter mask df).

Definition sort_values_obj {AS : ArgSort} `{Cell K} (ref : nat)
    (by_ : Row → option K) (ascending : bool) (inplace : bool)
    : St (option nat) :=
  method ref (sort_values by_ ascending) inplace.

Definition drop_duplicates_obj (ref : nat) (inplace : bool) : St (option nat) :=
  method ref drop_duplicates inplace.

Definition iloc_upto_obj (ref : nat) (N : Z) : St nat :=
  df ← load ref; new_frame (iloc_upto N df).

(** [get_top_N] on the store: the two [sort_values] and the
    [drop_duplicates] are called without [inplace], so with its default. *)
Definition get_top_N_obj {AS : ArgSort} (restos : nat) (cuisine_type : string)
    (N : Z) : St nat :=
  selected ← loc_obj restos (qualifies cuisine_type);
  by_date ← sort_values_obj selected GRADE_DATE false false ≫= receiver;
  candidates ← drop_duplicates_obj by_date false ≫= receiver;
  by_score ← sort_values_obj candidates SCORE true false ≫= receiver;
  top_ten ← iloc_upto_obj by_score N;
  mret top_ten.

(** ** A stable sorting algorithm *)

(** Insertion sort on indices: an index is placed after the indices of the
    keys that are not greater than its own. *)
Definition key_at `{Cell K} (ks : list K) (i : nat) : K :=
  default inhabitant (ks !! i).

Definition goes_before `{Cell K} (ks : list K) (i j : nat) : bool :=
  bool_decide (¬ cell_le (key_at ks j) (key_at ks i)).

Fixpoint insert_idx `{Cell K} (ks : list K) (i : nat) (l : list nat)
    : list nat :=
  match l with
  | [] => [i]
  | j :: l' =>
      if goes_before ks i j then i :: l
      else j :: insert_idx ks i l'
  end.

Definition insertion_argsort `{Cell K} (ks : list K) : list nat :=
  foldl (λ acc i, insert_idx ks i acc) [] (seq 0 (length ks)).

Definition by_key `{Cell K} (ks : list K) : relation nat :=
  λ i j, cell_le (key_at ks i) (key_at ks j).

(** ** The quicksort of numpy

    [sort_values] is called without [kind], so [argsort] runs numpy's
    [kind='quicksort'].  The cells of ['GRADE DATE'] are Python strings in an
    array of objects, which numpy sorts with [npy_aquicksort]
    (npysort/quicksort.cpp): quicksort on the median of three, insertion sort
    for parts of at most [SMALL_QUICKSORT + 1] elements, and heapsort once
    the depth limit is used up.  The definitions follow the C function loop
    by loop; a loop takes fuel, and a pointer into [tosort] is its offset. *)
Definition SMALL_QUICKSORT : Z := 16.

(** [npy_get_msb]: the position of the highest set bit. *)
Definition npy_get_msb (unum : Z) : Z := Z.log2 unum.

Section aquicksort.
Context `{Cell K}.
(** The array that is sorted; [tosort] is the array of indices that the sort
    rearranges. *)
Variable v : list K.

(** [cmp(a, b) < 0] *)
Definition less (a b : K) : bool := bool_decide (¬ cell_le b a).

(** [*p] and [v[*p]] *)
Definition deref (tosort : list nat) (p : Z) : nat :=
  default 0%nat (tosort !! Z.to_nat p).

Definition val_at (tosort : list nat) (p : Z) : K := key_at v (deref tosort p).

(** [*p = i] *)
Definition assign (tosort : list nat) (p : Z) (i : nat) : list nat :=
  <[Z.to_nat p := i]> tosort.

Definition INTP_SWAP (tosort : list nat) (p q : Z) : list nat :=
  assign (assign tosort p (deref tosort q)) q (deref tosort p).

(** [do { ++pi; } while (cmp(v[*pi], vp) < 0);] *)
Fixpoint scan_up (fuel : nat) (tosort : list nat) (vp : K) (pi : Z) : option Z :=
  match fuel with
  | O => None
  | S fuel =>
      let pi := pi + 1 in
      if less (val_at tosort pi) vp then scan_up fuel tosort vp pi else Some pi
  end.

(** [do { --pj; } while (cmp(vp, v[*pj]) < 0);] *)
Fixpoint scan_down (fuel : nat) (tosort : list nat) (vp : K) (pj : Z) : option Z :=
  match fuel with
  | O => None
  | S fuel =>
      let pj := pj - 1 in
      if less vp (val_at tosort pj) then scan_down fuel tosort vp pj else Some pj
  end.

(** The loop [for (;;)] of the partition; it returns the array and [pi]. *)
Fixpoint partition_loop (fuel : nat) (tosort : list nat) (vp : K) (pi pj : Z)
    : option (list nat * Z) :=
  match fuel with
  | O => None
  | S fuel =>
      pi ← scan_up (length tosort) tosort vp pi;
      pj ← scan_down (length tosort) tosort vp pj;
      if decide (pi >= pj) then Some (tosort, pi)
      else partition_loop fuel (INTP_SWAP tosort pi pj) vp pi pj
  end.

(** One pass of [while ((pr - pl) > SMALL_QUICKSORT)] up to the place of the
    pivot: the median of three, and the partition around it. *)
Definition median_partition (tosort : list nat) (pl pr : Z)
    : option (list nat * Z) :=
  let pm := pl + Z.shiftr (pr - pl) 1 in
  let tosort :=
    if less (val_at tosort pm) (val_at tosort pl) then INTP_SWAP tosort pm pl
    else tosort in
  let tosort :=
    if less (val_at tosort pr) (val_at tosort pm) then INTP_SWAP tosort pr pm
    else tosort in
  let tosort :=
    if less (val_at tosort pm) (val_at tosort pl) then INTP_SWAP tosort pm pl
    else tosort in
  let vp := val_at tosort pm in
  let pi := pl in
  let pj := pr - 1 in
  let tosort := INTP_SWAP tosort pm pj in
  '(tosort, pi) ← partition_loop (length tosort) tosort vp pi pj;
  let pk := pr - 1 in
  Some (INTP_SWAP tosort pi pk, pi).

(** [while (pj > pl && cmp(vp, v[*pk]) < 0) { *pj-- = *pk--; }] *)
Fixpoint insertion_shift (fuel : nat) (tosort : list nat) (pl : Z) (vp : K)
    (pj pk : Z) : option (list nat * Z) :=
  match fuel with
  | O => None
  | S fuel =>
      if decide (pj > pl) then
        if less vp (val_at tosort pk)
        then insertion_shift fuel (assign tosort pj (deref tosort pk)) pl vp
               (pj - 1) (pk - 1)
        else Some (tosort, pj)
      else Some (tosort, pj)
  end.

(** [for (pi = pl + 1; pi <= pr; ++pi)]: the insertion sort of a short part. *)
Fixpoint insertion_pass (fuel : nat) (tosort : list nat) (pl pr pi : Z)
    : option (list nat) :=
  match fuel with
  | O => None
  | S fuel =>
      if decide (pi <= pr) then
        let vi := deref tosort pi in
        let vp := key_at v vi in
        '(tosort, pj) ← insertion_shift (length tosort) tosort pl vp pi (pi - 1);
        insertion_pass fuel (assign tosort pj vi) pl pr (pi + 1)
      else Some tosort
  end.

(** The main loop, entered at the test of [while ((pr - pl) > ...)].  The
    stack holds the bounds of the parts still to sort, each with the depth
    left for it.  The outcome is [None] where a part is taken from the stack
    with its depth used up: numpy goes on with heapsort there, which is not
    modelled. *)
Fixpoint sort_loop (fuel : nat) (tosort : list nat) (pl pr cdepth : Z)
    (stack : list (Z * Z * Z)) : option (list nat) :=
  match fuel with
  | O => None
  | S fuel =>
      if decide (pr - pl > SMALL_QUICKSORT) then
        '(tosort, pi) ← median_partition tosort pl pr;
        let cdepth := cdepth - 1 in
        (* push largest partition on stack *)
        if decide (pi - pl < pr - pi)
        then sort_loop fuel tosort pl (pi - 1) cdepth ((pi + 1, pr, cdepth) :: stack)
        else sort_loop fuel tosort (pi + 1) pr cdepth ((pl, pi - 1, cdepth) :: stack)
      else
        tosort ← insertion_pass (S (length tosort)) tosort pl pr (pl + 1);
        match stack with
        | [] => Some tosort
        | (pl, pr, cdepth) :: stack =>
            if decide (cdepth < 0) then None
            else sort_loop fuel tosort pl pr cdepth stack
        end
  end.

Definition npy_aquicksort : option (list nat) :=
  let num := Z.of_nat (length v) in
  let tosort := seq 0 (length v) in
  sort_loop (2 * length v + 1) tosort 0 (num - 1) (npy_get_msb num * 2) [].
End aquicksort.

(** [argsort(kind='quicksort')]: the outcome of [npy_aquicksort] wherever it
    is a sorted rearrangement of the positions.  The insertion sort stands in
    for the heapsort beyond the depth limit; the properties below use no such
    input, and state the outcome of [npy_aquicksort] itself. *)
Definition quicksort_argsort `{Cell K} (ks : list K) : list nat :=
  match npy_aquicksort ks with
  | Some tosort =>
      if decide (tosort ≡ₚ seq 0 (length ks)
                 ∧ StronglySorted cell_le (gather ks tosort))
      then tosort else insertion_argsort ks
  | None => insertion_argsort ks
  end.

(** ** The vocabulary of the properties *)

(** The order of a sorted column: ascending or descending on the values that
    are present, with the missing ones last. *)
Definition na_last `{Cell K} (ascending : bool) : relation (option K) :=
  λ a b,
    match a, b with
    | Some x, Some y => if ascending then cell_le x y else cell_le y x
    | _, None => True
    | None, Some _ => False
    end.

Global Instance na_last_dec `{Cell K} ascending (a b : option K) :
  Decision (na_last ascending a b).
Proof. unfold na_last. destruct a, b, ascending; apply _. Defined.

(** [idx] lists positions of [items] that hold the values [vals]. *)
Definition aligned {K} (items : list (option K)) (idx : list nat)
    (vals : list K) : Prop :=
  Forall2 (λ i v, items !! i = Some (Some v)) idx vals.

(** The part of [nargsort] that orders the positions holding a value. *)
Definition value_indexer {AS : ArgSort} `{Cell K} (items : list (option K))
    (ascending : bool) : list nat :=
  if ascending then gather (non_nan_idx items) (argsort (omap id items))
  else reverse (gather (reverse (non_nan_idx items))
                  (argsort (reverse (omap id items)))).

(** The cell [d] of ['GRADE DATE'] is not sorted after the cell [d'] by
    [sort_values(by='GRADE DATE', ascending=False)]: [d'] is missing, or both
    are present and the text of [d'] is not greater than the text of [d]. *)
Definition sorts_no_later (d d' : option string) : Prop := na_last false d d'.

(** The scenario of the specification, its dates written as the
    specification writes them. *)
Definition scenario_record (id : Z) (cuisine grade : string) (score : Z)
    (date : string) : Row :=
  {| CAMIS := id; DBA := ""; CUISINE_DESCRIPTION := cuisine;
     BUILDING := ""; STREET := ""; BORO := ""; ZIPCODE := None;
     GRADE := Some grade; SCORE := Some score; GRADE_DATE := Some date |}.

Definition scenario_table : DataFrame :=
  [ scenario_record 1 "Thai" "A" 5 "2023-01-01";
    scenario_record 1 "Thai" "B" 9 "2023-02-01";
    scenario_record 2 "Thai" "C" 2 "2023-01-01" ].

(** A grade date as the city's feed writes it, month/day/year, read as a
    day of the calendar: (year, month, day). *)
Definition digit_of (c : Ascii.ascii) : option Z :=
  let n := Z.of_N (Ascii.N_of_ascii c) - 48 in
  if decide (0 ≤ n ≤ 9) then Some n else None.

Fixpoint number_of (acc : Z) (s : string) : option Z :=
  match s with
  | EmptyString => Some acc
  | String c s' => d ← digit_of c; number_of (10 * acc + d) s'
  end.

Definition calendar_day (date : string) : option (Z * Z * Z) :=
  month ← number_of 0 (String.substring 0 2 date);
  day ← number_of 0 (String.substring 3 2 date);
  year ← number_of 0 (String.substring 6 4 date);
  Some (year, month, day).

Definition day_before (d d' : Z * Z * Z) : Prop :=
  let '(y, m, d) := d in
  let '(y', m', d') := d' in
  y < y' ∨ (y = y' ∧ (m < m' ∨ (m = m' ∧ d < d'))).

(** [r] was graded before [r']. *)
Definition graded_before (r r' : Row) : Prop :=
  ∃ d d', GRADE_DATE r ≫= calendar_day = Some d
          ∧ GRADE_DATE r' ≫= calendar_day = Some d'
          ∧ day_before d d'.

(** A restaurant graded on the last day of 2022 and again two weeks later,
    the dates written as in the feed. *)
Definition regraded_table : DataFrame :=
  [ scenario_record 1 "Thai" "A" 5 "12/31/2022";
    scenario_record 1 "Thai" "B" 9 "01/15/2023" ].

(** A table in which two inspections of one restaurant have the same grade
    date. *)
Definition tie_table : DataFrame :=
  [ scenario_record 7 "Thai" "A" 5 "2023-02-01";
    scenario_record 7 "Thai" "B" 9 "2023-02-01" ].

(** Twenty inspections of nineteen restaurants, all within one year; the
    restaurant 7 has two records of its one grade date. *)
Definition twenty_inspections : DataFrame :=
  [ scenario_record 101 "Thai" "A" 10 "12/31/2023";
    scenario_record 102 "Thai" "A" 10 "12/01/2023";
    scenario_record 7 "Thai" "A" 5 "03/01/2023";
    scenario_record 7 "Thai" "B" 9 "03/01/2023";
    scenario_record 103 "Thai" "A" 10 "07/06/2023";
    scenario_record 104 "Thai" "A" 10 "07/05/2023";
    scenario_record 105 "Thai" "A" 10 "07/04/2023";
    scenario_record 106 "Thai" "A" 10 "07/03/2023";
    scenario_record 107 "Thai" "A" 10 "07/02/2023";
    scenario_record 108 "Thai" "A" 10 "07/01/2023";
    scenario_record 109 "Thai" "A" 10 "06/15/2023";
    scenario_record 110 "Thai" "A" 10 "01/15/2023";
    scenario_record 111 "Thai" "A" 10 "01/14/2023";
    scenario_record 112 "Thai" "A" 10 "01/13/2023";
    scenario_record 113 "Thai" "A" 10 "01/12/2023";
    scenario_record 114 "Thai" "A" 10 "01/11/2023";
    scenario_record 115 "Thai" "A" 10 "01/10/2023";
    scenario_record 116 "Thai" "A" 10 "11/02/2023";
    scenario_record 117 "Thai" "A" 10 "11/01/2023";
    scenario_record 118 "Thai" "A" 10 "01/05/2023" ].

(** A table with three qualifying restaurants. *)
Definition three_restaurants : DataFrame :=
  [ scenario_record 1 "Thai" "A" 5 "2023-01-01";
    scenario_record 2 "Thai" "B" 9 "2023-02-01";
    scenario_record 3 "Thai" "A" 2 "2023-01-01" ].

(** The tie-breaking policy of the specification: among the qualifying
    records of one restaurant that share its greatest grade date, the one
    that comes first in the input is the candidate.  The greatest grade date
    is the one [sort_values] puts first: no qualifying record of the
    restaurant has a cell that is sorted before it. *)
Definition first_of_ties_kept {AS : ArgSort} (restos : DataFrame)
    (cuisine_type : string) : Prop :=
  ∀ (i : nat) r,
    restos !! i = Some r → qualifies cuisine_type r →
    (∀ r', r' ∈ restos → qualifies cuisine_type r' → CAMIS r' = CAMIS r →
           sorts_no_later (GRADE_DATE r) (GRADE_DATE r')) →
    (∀ (j : nat) r', (j < i)%nat → restos !! j = Some r' →
           qualifies cuisine_type r' → CAMIS r' = CAMIS r →
           GRADE_DATE r' ≠ GRADE_DATE r) →
    r ∈ candidates restos cuisine_type.

Definition no_match_service : string → result (list pyval) := λ _, Ok [].
Definition two_match_service : string → result (list pyval) := λ _, Ok two_matches.
Definition one_match_service : string → result (list pyval) :=
  λ _, Ok (take 1 two_matches).
Definition bare_match_service : string → result (list pyval) :=
  λ _, Ok [PyDict ∅].

(** ** The rest of the module: loader, drop-down, map and table *)

(** [Series.unique()]: the distinct values, in order of first appearance. *)
Fixpoint unique_from (seen : gset string) (values : list string) : list string :=
  match values with
  | [] => []
  | v :: values' =>
      if decide (v ∈ seen) then unique_from seen values'
      else v :: unique_from ({[v]} ∪ seen) values'
  end.

Definition unique (values : list string) : list string := unique_from ∅ values.

Section read_data_set.
(** [urllib.request.urlopen(URL)] followed by [pd.read_csv]: the parsed table,
    or the exception of the download or of the parser. *)
Variable download : result (list Row).

Definition read_data_set : result (list Row * list string) :=
  df ← download;
  let cuisines := unique (CUISINE_DESCRIPTION <$> df) in
  Ok (df, cuisines).
End read_data_set.

(** One entry of the drop-down: the dict [{'label': ..., 'value': ...}]. *)
Record DropdownOption := mkOption {
  label : string;
  value : string
}.

Definition get_dropdown_labels (cuisines : list string) : list DropdownOption :=
  (λ cuisine, {| label := cuisine; value := cuisine |}) <$> cuisines.

Definition ADDRESS_COLUMNS : list string :=
  ["DBA"; "BUILDING"; "STREET"; "BORO"; "ZIPCODE"].

(** A frame seen through its column labels, as [generate_table] reads it:
    [columns] is [dataframe.columns] and a row maps a label to its cell. *)
Record Frame := mkFrame {
  columns : list string;
  rows : list (string → pyval)
}.

(** The cell of a row under one of the [ADDRESS_COLUMNS]; the zip code is a
    float column. *)
Definition address_cell (r : Row) (col : string) : pyval :=
  if decide (col = "DBA") then PyStr (DBA r)
  else if decide (col = "BUILDING") then PyStr (BUILDING r)
  else if decide (col = "STREET") then PyStr (STREET r)
  else if decide (col = "BORO") then PyStr (BORO r)
  else if decide (col = "ZIPCODE") then from_option PyFloat PyNaN (ZIPCODE r)
  else PyNone.

(** [df[ADDRESS_COLUMNS]] *)
Definition select_address_columns (df : DataFrame) : Frame :=
  {| columns := ADDRESS_COLUMNS; rows := address_cell <$> df |}.

(** The components of [dash_html_components] that [generate_table] builds. *)
#[warnings="-register-all"]
Inductive html :=
  | Table (id : string) (children : list html)
  | Tr (children : list html)
  | Th (children : string)
  | Td (children : pyval).

(** [range(n)] *)
Definition py_range (n : Z) : list nat := seq 0 (Z.to_nat n).

Definition generate_table (dataframe : Frame) (max_rows : Z) : html :=
  Table "output-table"
    ([Tr ((λ col, Th col) <$> columns dataframe)] ++
     ((λ row, Tr ((λ col, Td (row col)) <$> columns dataframe))
        <$> gather (rows dataframe)
              (py_range (Z.of_nat (length (rows dataframe)) `min` max_rows)))).

(** The keyword default of [def generate_table(dataframe, max_rows=10)]. *)
Definition default_max_rows : Z := 10.

Definition generate_table_kw (dataframe : Frame) (max_rows : option Z) : html :=
  generate_table dataframe (default default_max_rows max_rows).

(** The plotly objects that [plot_map] builds. *)
Record Marker := mkMarker {
  symbol : string;
  size : Z
}.

Record Scattermapbox := mkScattermapbox {
  trace_lon : list pyval;
  trace_lat : list pyval;
  trace_text : list string;
  mode : string;
  showlegend : bool;
  hoverinfo : string;
  textposition : string;
  marker : Marker
}.

Record Layer := mkLayer {
  sourcetype : string;
  layer_type : string;
  color : string
}.

Record Mapbox := mkMapbox {
  layers : list Layer;
  accesstoken : string;
  bearing : Z;
  center_lat : Q;
  center_lon : Q;
  pitch : Z;
  zoom : Z;
  style : string
}.

Record Layout := mkLayout {
  title : string;
  height : Z;
  width : Z;
  autosize : bool;
  hovermode : string;
  mapbox : Mapbox
}.

Record Figure := mkFigure {
  layout : Layout;
  data : list Scattermapbox
}.

Section presenter.
Context {AS : ArgSort}.
Variable geocode : string → result (list pyval).
(** [plotly.offline.iplot(figure, validate=...)]: it displays the figure in
    the running notebook and returns nothing, and raises [ImportError] where
    IPython cannot be imported. *)
Variable iplot : Figure → bool → result unit.
Variable MAPBOX_ACCESS_TOKEN : string.
(** The table loaded at start-up. *)
Variable DF : list Row.

Definition plot_map (restos : DataFrame) (cuisine_type : string) : result Figure :=
  let top_ten := get_top_N_kw restos (Some cuisine_type) None in
  lat_lons ← find_lat_lon geocode top_ten;
  let nyc_central_lat := 407128 # 10000 in
  let nyc_central_lon := -739 # 10 in
  let data :=
    [ {| trace_lon := (λ lat_lon, lon lat_lon) <$> lat_lons;
         trace_lat := (λ lat_lon, lat lat_lon) <$> lat_lons;
         trace_text := (λ lat_lon, name lat_lon) <$> lat_lons;
         mode := "markers+text";
         showlegend := false;
         hoverinfo := "text";
         textposition := "top center";
         marker := {| symbol := "star"; size := 10 |} |} ] in
  let layers :=
    [ {| sourcetype := "geojson"; layer_type := "fill";
         color := "rgba(163,22,19,0.8)" |} ] in
  let layout :=
    {| title := ""; height := 800; width := 600; autosize := true;
       hovermode := "closest";
       mapbox := {| layers := layers; accesstoken := MAPBOX_ACCESS_TOKEN;
                    bearing := 0; center_lat := nyc_central_lat;
                    center_lon := nyc_central_lon; pitch := 0; zoom := 10;
                    style := "light" |} |} in
  let fig := {| layout := layout; data := data |} in
  _ ← iplot fig false;
  Ok fig.

(** The callbacks of the drop-down. *)
Definition plot_selection (value : string) : result Figure :=
  plot_map DF value.

Definition print_table (value : string) : html :=
  generate_table_kw (select_address_columns (get_top_N_kw DF (Some value) None)) None.
End presenter.

(** [iplot] inside a notebook, and where IPython is not installed. *)
Definition notebook_iplot : Figure → bool → result unit := λ _ _, Ok ().
Definition no_ipython_iplot : Figure → bool → result unit :=
  λ _ _, Raise ImportError.

(** A restaurant whose zip code was read with a fractional part. *)
Definition fractional_zip_resto : Row :=
  {| CAMIS := 1; DBA := "THAI HOUSE"; CUISINE_DESCRIPTION := "Thai";
     BUILDING := "12"; STREET := "MAIN ST"; BORO := "QUEENS";
     ZIPCODE := Some (113549 # 10);
     GRADE := Some "A"; SCORE := Some 5; GRADE_DATE := Some "01/01/2023" |}.

(** * Part II: what the operations guarantee *)

(** ** Facts about [gather] *)

Lemma gather_nil {A} (xs : list A) : gather xs [] = [].
Proof. reflexivity. Qed.

Lemma gather_cons {A} (xs : list A) i indexer :
  gather xs (i :: indexer)
  = match xs !! i with
    | Some x => x :: gather xs indexer
    | None => gather xs indexer
    end.
Proof. reflexivity. Qed.

Lemma gather_app {A} (xs : list A) is1 is2 :
  gather xs (is1 ++ is2) = gather xs is1 ++ gather xs is2.
Proof. apply omap_app. Qed.

Lemma gather_seq_app {A} (pre xs : list A) :
  gather (pre ++ xs) (seq (length pre) (length xs)) = xs.
Proof.
  revert pre. induction xs as [|x xs IH]; intros pre; [done|].
  simpl seq. rewrite gather_cons, list_lookup_middle by done. f_equal.
  specialize (IH (pre ++ [x])).
  by rewrite <- app_assoc, length_app, Nat.add_comm in IH.
Qed.

Lemma gather_seq {A} (xs : list A) : gather xs (seq 0 (length xs)) = xs.
Proof. apply (gather_seq_app []). Qed.

Lemma gather_Permutation {A} (xs : list A) is1 is2 :
  is1 ≡ₚ is2 → gather xs is1 ≡ₚ gather xs is2.
Proof. intros H. unfold gather. by rewrite H. Qed.

Lemma gather_perm_seq {A} (xs : list A) indexer :
  indexer ≡ₚ seq 0 (length xs) → gather xs indexer ≡ₚ xs.
Proof. intros H. rewrite (gather_Permutation _ _ _ H). by rewrite gather_seq. Qed.

Lemma gather_fmap {A B} (f : A → B) (xs : list A) indexer :
  gather (f <$> xs) indexer = f <$> gather xs indexer.
Proof.
  unfold gather. rewrite list_fmap_omap.
  apply list_omap_ext, Forall_Forall2_diag, Forall_true.
  intros i. apply list_lookup_fmap.
Qed.

Lemma gather_reverse {A} (xs : list A) indexer :
  gather xs (reverse indexer) = reverse (gather xs indexer).
Proof.
  induction indexer as [|i indexer IH]; [done|].
  rewrite reverse_cons, gather_app, IH, !gather_cons, gather_nil.
  destruct (xs !! i); [by rewrite reverse_cons|by rewrite app_nil_r].
Qed.

Lemma gather_valid {A} (xs : list A) (d : A) indexer :
  Forall (λ i, (i < length xs)%nat) indexer →
  gather xs indexer = (λ i, default d (xs !! i)) <$> indexer.
Proof.
  induction 1 as [|i indexer Hi _ IH]; [done|].
  rewrite gather_cons, fmap_cons, IH.
  by apply lookup_lt_is_Some_2 in Hi as [x ->].
Qed.

(** ** The insertion sort meets the contract of [argsort] *)

Section insertion_sort.
Context `{Cell K}.
Implicit Types ks : list K.

Lemma cell_le_refl (x : K) : cell_le x x.
Proof. reflexivity. Qed.

Lemma cell_le_trans (x y z : K) : cell_le x y → cell_le y z → cell_le x z.
Proof. intros. by etrans. Qed.

Lemma cell_le_flip (x y : K) : ¬ cell_le x y → cell_le y x.
Proof. intros Hxy. by destruct (total cell_le x y). Qed.

Lemma goes_before_by_key ks i j : goes_before ks i j = true → by_key ks i j.
Proof.
  unfold goes_before, by_key. intros Hij%bool_decide_eq_true.
  by apply cell_le_flip.
Qed.

Lemma not_goes_before_by_key ks i j :
  goes_before ks i j = false → by_key ks j i.
Proof.
  unfold goes_before, by_key. intros Hij%bool_decide_eq_false.
  by destruct (decide (cell_le (key_at ks j) (key_at ks i))).
Qed.

Lemma insert_idx_perm ks i l : insert_idx ks i l ≡ₚ i :: l.
Proof.
  induction l as [|j l IH]; simpl; [done|].
  destruct (goes_before ks i j); [done|].
  rewrite IH. apply Permutation_swap.
Qed.

Lemma foldl_insert_perm ks todo acc :
  foldl (λ acc i, insert_idx ks i acc) acc todo ≡ₚ acc ++ todo.
Proof.
  revert acc. induction todo as [|i todo IH]; intros acc; simpl.
  - by rewrite app_nil_r.
  - rewrite IH, insert_idx_perm. simpl. apply Permutation_middle.
Qed.

Lemma insertion_argsort_perm ks :
  insertion_argsort ks ≡ₚ seq 0 (length ks).
Proof. unfold insertion_argsort. by rewrite foldl_insert_perm. Qed.

Lemma insert_idx_sorted ks i l :
  StronglySorted (by_key ks) l → StronglySorted (by_key ks) (insert_idx ks i l).
Proof.
  induction 1 as [|j l Hl IH Hj]; simpl.
  - repeat constructor.
  - destruct (goes_before ks i j) eqn:Hij.
    + apply goes_before_by_key in Hij. constructor; [by constructor|].
      constructor; [done|]. eapply Forall_impl; [exact Hj|].
      unfold by_key in *. intros; simpl in *. by eapply cell_le_trans.
    + apply not_goes_before_by_key in Hij. constructor; [done|].
      rewrite insert_idx_perm. by constructor.
Qed.

Lemma foldl_insert_sorted ks todo acc :
  StronglySorted (by_key ks) acc →
  StronglySorted (by_key ks) (foldl (λ acc i, insert_idx ks i acc) acc todo).
Proof.
  revert acc. induction todo as [|i todo IH]; intros acc Hacc; simpl; [done|].
  by apply IH, insert_idx_sorted.
Qed.

Lemma perm_seq_valid (n : nat) (l : list nat) :
  l ≡ₚ seq 0 n → Forall (λ i, (i < n)%nat) l.
Proof.
  intros Hl. rewrite Hl. apply Forall_forall. intros i Hi%elem_of_seq. lia.
Qed.

Lemma insertion_argsort_sorted ks :
  StronglySorted cell_le (gather ks (insertion_argsort ks)).
Proof.
  rewrite (gather_valid _ inhabitant)
    by apply perm_seq_valid, insertion_argsort_perm.
  apply (StronglySorted_fmap _ (by_key ks)); [done|].
  apply foldl_insert_sorted. constructor.
Qed.
End insertion_sort.

(** The insertion sort that numpy's quicksort uses on short arrays; it
    computes what a stable [kind] computes. *)
Definition stable_argsort : ArgSort := {|
  argsort K _ := insertion_argsort;
  argsort_perm K _ := insertion_argsort_perm;
  argsort_sorted K _ := insertion_argsort_sorted
|}.

Lemma quicksort_argsort_perm `{Cell K} (ks : list K) :
  quicksort_argsort ks ≡ₚ seq 0 (length ks).
Proof.
  unfold quicksort_argsort.
  destruct (npy_aquicksort ks); [|apply insertion_argsort_perm].
  case_decide; [tauto|apply insertion_argsort_perm].
Qed.

Lemma quicksort_argsort_sorted `{Cell K} (ks : list K) :
  StronglySorted cell_le (gather ks (quicksort_argsort ks)).
Proof.
  unfold quicksort_argsort.
  destruct (npy_aquicksort ks); [|apply insertion_argsort_sorted].
  case_decide; [tauto|apply insertion_argsort_sorted].
Qed.

(** The sort that [sort_values] runs on a column of objects, such as the
    text of ['GRADE DATE']. *)
Definition numpy_quicksort : ArgSort := {|
  argsort K _ := quicksort_argsort;
  argsort_perm K _ := quicksort_argsort_perm;
  argsort_sorted K _ := quicksort_argsort_sorted
|}.

(** ** What [sort_values] guarantees *)

Lemma aligned_non_nan {K} pre (items : list (option K)) :
  aligned (pre ++ items)
    (filter (λ i, is_Some ((pre ++ items) !! i ≫= id))
       (seq (length pre) (length items)))
    (omap id items).
Proof.
  revert pre. induction items as [|o items IH]; intros pre; [constructor|].
  simpl seq. specialize (IH (pre ++ [o])).
  rewrite <- app_assoc, length_app, Nat.add_comm in IH. simpl in IH.
  assert ((pre ++ o :: items) !! length pre = Some o) as Hhd
    by by apply list_lookup_middle.
  destruct o as [v|].
  - rewrite filter_cons_True by (rewrite Hhd; by eexists).
    constructor; [done|apply IH].
  - rewrite filter_cons_False by (rewrite Hhd; by intros [? ?]).
    apply IH.
Qed.

Lemma aligned_gather {K} (items : list (option K)) idx vals indexer :
  aligned items idx vals →
  gather items (gather idx indexer) = Some <$> gather vals indexer.
Proof.
  intros Hal. induction indexer as [|p indexer IH]; [done|].
  rewrite !gather_cons. destruct (idx !! p) as [i|] eqn:Hi.
  - destruct (Forall2_lookup_l _ _ _ _ _ Hal Hi) as (v & -> & Hv).
    by rewrite gather_cons, Hv, fmap_cons, IH.
  - assert (vals !! p = None) as ->; [|done].
    apply lookup_ge_None. apply lookup_ge_None in Hi.
    by rewrite <- (Forall2_length _ _ _ Hal).
Qed.

Lemma aligned_filter `{EqDecision K} (items : list (option K)) idx vals
    indexer k :
  aligned items idx vals →
  filter (λ i, items !! i = Some (Some k)) (gather idx indexer)
  = gather idx (filter (λ p, vals !! p = Some k) indexer).
Proof.
  intros Hal. induction indexer as [|p indexer IH]; [done|].
  rewrite gather_cons, filter_cons. destruct (idx !! p) as [i|] eqn:Hi.
  - destruct (Forall2_lookup_l _ _ _ _ _ Hal Hi) as (v & Hp & Hv).
    rewrite filter_cons, Hp, Hv.
    destruct (decide (Some (Some v) = Some (Some k))) as [?|Hne];
      simplify_eq.
    + rewrite decide_True by done. by rewrite gather_cons, Hi, IH.
    + rewrite decide_False by congruence. done.
  - case_decide; [|done]. by rewrite gather_cons, Hi.
Qed.

Lemma StronglySorted_reverse {A} (R : relation A) l :
  StronglySorted R l → StronglySorted (flip R) (reverse l).
Proof.
  induction 1 as [|x l Hl IH Hx]; [constructor|].
  rewrite reverse_cons. apply StronglySorted_app.
  split; [|split; [exact IH|repeat constructor]].
  intros y z Hy ->%list_elem_of_singleton.
  rewrite elem_of_reverse in Hy. rewrite Forall_forall in Hx. by apply Hx.
Qed.

Lemma gather_filter {A} (xs : list A) (P : A → Prop) (Q : nat → Prop)
    `{∀ x, Decision (P x)} `{∀ i, Decision (Q i)} indexer :
  (∀ i x, xs !! i = Some x → Q i ↔ P x) →
  gather xs (filter Q indexer) = filter P (gather xs indexer).
Proof.
  intros HPQ. induction indexer as [|i indexer IH]; [done|].
  rewrite gather_cons, filter_cons. destruct (xs !! i) as [x|] eqn:Hx.
  - rewrite filter_cons. specialize (HPQ _ _ Hx).
    destruct (decide (Q i)), (decide (P x)); try tauto.
    by rewrite gather_cons, Hx, IH.
  - case_decide; [|done]. by rewrite gather_cons, Hx.
Qed.

Lemma filter_ext_elem {A} (P Q : A → Prop)
    `{∀ x, Decision (P x)} `{∀ x, Decision (Q x)} (l : list A) :
  (∀ x, x ∈ l → P x ↔ Q x) → filter P l = filter Q l.
Proof.
  induction l as [|x l IH]; intros HPQ; [done|].
  rewrite !filter_cons, IH by (intros; apply HPQ; by right).
  destruct (HPQ x) as [??]; [by left|].
  destruct (decide (P x)), (decide (Q x)); tauto.
Qed.

Lemma all_nan_sorted `{Cell K} ascending (l : list (option K)) :
  Forall (λ o, o = None) l → StronglySorted (na_last ascending) l.
Proof.
  induction 1 as [|o l -> Hl IH]; constructor; [done|].
  eapply Forall_impl; [exact Hl|]. by intros ? ->.
Qed.

Lemma filter_none {A} (P : A → Prop) `{∀ x, Decision (P x)} (l : list A) :
  (∀ x, x ∈ l → ¬ P x) → filter P l = [].
Proof.
  induction l as [|x l IH]; intros HP; [done|].
  rewrite filter_cons_False by (apply HP; by left).
  apply IH. intros; apply HP; by right.
Qed.

Section sort_values_facts.
Context {AS : ArgSort} {K : Type} {cell : Cell K}.
Implicit Types items : list (option K).

Lemma nargsort_eq items ascending :
  nargsort items ascending = value_indexer items ascending ++ nan_idx items.
Proof. unfold nargsort, value_indexer. by destruct ascending. Qed.

Lemma aligned_items items :
  aligned items (non_nan_idx items) (omap id items).
Proof. apply (aligned_non_nan []). Qed.

Lemma aligned_items_reverse items :
  aligned items (reverse (non_nan_idx items)) (reverse (omap id items)).
Proof. apply Forall2_reverse, aligned_items. Qed.

Lemma value_indexer_perm items ascending :
  value_indexer items ascending ≡ₚ non_nan_idx items.
Proof.
  unfold value_indexer. destruct ascending.
  - apply gather_perm_seq.
    rewrite (Forall2_length _ _ _ (aligned_items items)). apply argsort_perm.
  - rewrite reverse_Permutation.
    transitivity (reverse (non_nan_idx items)); [|apply reverse_Permutation].
    apply gather_perm_seq.
    rewrite (Forall2_length _ _ _ (aligned_items_reverse items)).
    apply argsort_perm.
Qed.

Lemma nan_idx_complement items :
  nan_idx items
  = filter (λ i, ¬ is_Some (items !! i ≫= id)) (seq 0 (length items)).
Proof.
  unfold nan_idx. apply filter_ext_elem. intros i [_ Hi]%elem_of_seq.
  apply lookup_lt_is_Some_2 in Hi as [[k|] ->]; simpl.
  - split; [done|]. intros []. by eexists.
  - split; [|done]. by intros _ [? ?].
Qed.

Lemma nargsort_perm items ascending :
  nargsort items ascending ≡ₚ seq 0 (length items).
Proof.
  rewrite nargsort_eq, value_indexer_perm, nan_idx_complement.
  apply (filter_app_complement (λ i, is_Some (items !! i ≫= id))).
Qed.

Lemma value_indexer_keys items ascending :
  ∃ vals, gather items (value_indexer items ascending) = Some <$> vals
          ∧ StronglySorted
              (λ x y, if ascending then cell_le x y else cell_le y x) vals.
Proof.
  unfold value_indexer. destruct ascending.
  - eexists. split; [apply aligned_gather, aligned_items|].
    apply argsort_sorted.
  - eexists. split.
    + rewrite gather_reverse, (aligned_gather _ _ _ _ (aligned_items_reverse items)).
      symmetry. apply fmap_reverse.
    + apply (StronglySorted_reverse cell_le), argsort_sorted.
Qed.

Lemma gather_nan_idx items :
  Forall (λ o, o = None) (gather items (nan_idx items)).
Proof.
  apply Forall_forall. intros o (i & Hi & Hio)%list_elem_of_omap.
  apply list_elem_of_filter in Hi as [Hi _]. congruence.
Qed.

Lemma nargsort_sorted items ascending :
  StronglySorted (na_last ascending) (gather items (nargsort items ascending)).
Proof.
  rewrite nargsort_eq, gather_app.
  destruct (value_indexer_keys items ascending) as (vals & -> & Hvals).
  pose proof (gather_nan_idx items) as Hnan.
  apply StronglySorted_app. split_and!.
  - intros a b _ Hb. rewrite Forall_forall in Hnan.
    rewrite (Hnan b Hb). by destruct a.
  - eapply StronglySorted_fmap; [|exact Hvals]. by destruct ascending.
  - by apply all_nan_sorted.
Qed.

Lemma value_indexer_stable items ascending k :
  Stable AS →
  filter (λ i, items !! i = Some (Some k)) (value_indexer items ascending)
  = filter (λ i, items !! i = Some (Some k)) (non_nan_idx items).
Proof.
  intros HS. unfold value_indexer. destruct ascending.
  - rewrite (aligned_filter _ _ _ _ _ (aligned_items items)), HS.
    rewrite <- (aligned_filter _ _ _ _ _ (aligned_items items)).
    by rewrite <- (Forall2_length _ _ _ (aligned_items items)), gather_seq.
  - rewrite filter_reverse.
    rewrite (aligned_filter _ _ _ _ _ (aligned_items_reverse items)), HS.
    rewrite <- (aligned_filter _ _ _ _ _ (aligned_items_reverse items)).
    rewrite <- (Forall2_length _ _ _ (aligned_items_reverse items)), gather_seq.
    by rewrite filter_reverse, reverse_involutive.
Qed.

Lemma nargsort_stable items ascending o :
  Stable AS →
  filter (λ i, items !! i = Some o) (nargsort items ascending)
  = filter (λ i, items !! i = Some o) (seq 0 (length items)).
Proof.
  intros HS. rewrite nargsort_eq, filter_app. destruct o as [k|].
  - rewrite value_indexer_stable by done.
    rewrite (filter_none _ (nan_idx items)), app_nil_r.
    + unfold non_nan_idx. apply list_filter_filter_l.
      intros i ->. by eexists.
    + intros i [Hi _]%list_elem_of_filter. congruence.
  - rewrite (filter_none _ (value_indexer items ascending)).
    + unfold nan_idx. by apply list_filter_filter_r.
    + intros i Hi Hnone. rewrite value_indexer_perm in Hi.
      apply list_elem_of_filter in Hi as [[? Hi] _].
      by rewrite Hnone in Hi.
Qed.

(** *** The three facts at the level of rows *)

Lemma sort_values_perm (by_ : Row → option K) ascending df :
  sort_values by_ ascending df ≡ₚ df.
Proof.
  apply gather_perm_seq. rewrite <- (length_fmap by_). apply nargsort_perm.
Qed.

Lemma sort_values_sorted (by_ : Row → option K) ascending df :
  StronglySorted (na_last ascending) (by_ <$> sort_values by_ ascending df).
Proof. unfold sort_values. rewrite <- gather_fmap. apply nargsort_sorted. Qed.

Lemma sort_values_stable (by_ : Row → option K) ascending df o :
  Stable AS →
  filter (λ r, by_ r = o) (sort_values by_ ascending df)
  = filter (λ r, by_ r = o) df.
Proof.
  intros HS. unfold sort_values.
  assert (∀ i r, df !! i = Some r → (by_ <$> df) !! i = Some o ↔ by_ r = o)
    as Hkey.
  { intros i r Hr. rewrite list_lookup_fmap, Hr. simpl. split; congruence. }
  rewrite <- (gather_filter df (λ r, by_ r = o)
                (λ i, (by_ <$> df) !! i = Some o)) by done.
  rewrite nargsort_stable, length_fmap by done.
  rewrite (gather_filter df (λ r, by_ r = o)
             (λ i, (by_ <$> df) !! i = Some o)) by done.
  by rewrite gather_seq.
Qed.
End sort_values_facts.

(** ** The insertion sort is stable *)

Section insertion_sort_stable.
Context `{Cell K}.
Implicit Types ks : list K.

Lemma insert_idx_filter ks k i l :
  StronglySorted (by_key ks) l →
  filter (λ j, ks !! j = Some k) (insert_idx ks i l)
  = filter (λ j, ks !! j = Some k) l ++ filter (λ j, ks !! j = Some k) [i].
Proof.
  induction 1 as [|j l Hl IH Hj]; [by rewrite app_nil_l|].
  change (insert_idx ks i (j :: l))
    with (if goes_before ks i j then i :: j :: l
          else j :: insert_idx ks i l).
  destruct (goes_before ks i j) eqn:Hij.
  - rewrite (filter_cons _ i (j :: l)), (filter_cons _ i []), filter_nil.
    case_decide as Hi; [|by rewrite app_nil_r].
    rewrite (filter_none _ (j :: l)); [done|].
    apply bool_decide_eq_true in Hij.
    assert (key_at ks i = k) as Hk by (unfold key_at; by rewrite Hi).
    intros x Hx Hxk.
    assert (key_at ks x = k) as Hk' by (unfold key_at; by rewrite Hxk).
    assert (by_key ks j x) as Hjx.
    { apply elem_of_cons in Hx as [->|Hx]; [apply cell_le_refl|].
      rewrite Forall_forall in Hj. by apply Hj. }
    unfold by_key in Hjx. apply Hij. by rewrite Hk, <- Hk'.
  - rewrite !(filter_cons _ j), IH. by case_decide.
Qed.

Lemma foldl_insert_filter ks k todo acc :
  StronglySorted (by_key ks) acc →
  filter (λ j, ks !! j = Some k)
    (foldl (λ acc i, insert_idx ks i acc) acc todo)
  = filter (λ j, ks !! j = Some k) acc ++ filter (λ j, ks !! j = Some k) todo.
Proof.
  revert acc. induction todo as [|i todo IH]; intros acc Hacc; simpl foldl.
  - by rewrite filter_nil, app_nil_r.
  - rewrite IH by by apply insert_idx_sorted.
    rewrite insert_idx_filter by done.
    by rewrite <- app_assoc, <- filter_app.
Qed.
End insertion_sort_stable.

Lemma stable_argsort_Stable : Stable stable_argsort.
Proof.
  intros K C ks k. simpl. unfold insertion_argsort.
  rewrite foldl_insert_filter by constructor. done.
Qed.

(** ** What [drop_duplicates] guarantees *)

Lemma drop_duplicates_from_sublist seen df :
  drop_duplicates_from seen df `sublist_of` df.
Proof.
  revert seen. induction df as [|r df IH]; intros seen; simpl; [done|].
  case_decide; [by apply sublist_cons|by apply sublist_skip].
Qed.

Lemma drop_duplicates_from_unseen seen df r :
  r ∈ drop_duplicates_from seen df → CAMIS r ∉ seen.
Proof.
  revert seen. induction df as [|r0 df IH]; intros seen; simpl.
  - by intros ?%elem_of_nil.
  - case_decide as Hseen; [by apply IH|].
    intros [->|Hr%IH]%elem_of_cons; [done|]. set_solver.
Qed.

Lemma drop_duplicates_from_NoDup seen df :
  NoDup (CAMIS <$> drop_duplicates_from seen df).
Proof.
  revert seen. induction df as [|r df IH]; intros seen; simpl; [constructor|].
  case_decide; [by apply IH|].
  rewrite fmap_cons. constructor; [|by apply IH].
  intros (r' & Heq & Hr')%list_elem_of_fmap.
  apply drop_duplicates_from_unseen in Hr'. set_solver.
Qed.

(** A row that survives is the first of its identifier. *)
Lemma drop_duplicates_from_first seen df r :
  r ∈ drop_duplicates_from seen df →
  ∃ l1 l2, df = l1 ++ r :: l2 ∧ CAMIS r ∉ CAMIS <$> l1.
Proof.
  revert seen. induction df as [|r0 df IH]; intros seen; simpl.
  - by intros ?%elem_of_nil.
  - case_decide as Hseen.
    + intros Hr. pose proof (drop_duplicates_from_unseen _ _ _ Hr) as Hun.
      destruct (IH _ Hr) as (l1 & l2 & -> & Hl1).
      exists (r0 :: l1), l2. split; [done|].
      rewrite fmap_cons, not_elem_of_cons. split; [congruence|done].
    + intros [->|Hr]%elem_of_cons.
      * exists [], df. split; [done|]. by intros ?%elem_of_nil.
      * pose proof (drop_duplicates_from_unseen _ _ _ Hr) as Hun.
        destruct (IH _ Hr) as (l1 & l2 & -> & Hl1).
        exists (r0 :: l1), l2. split; [done|].
        rewrite fmap_cons, not_elem_of_cons. split; [set_solver|done].
Qed.

(** The first row of an identifier survives. *)
Lemma drop_duplicates_from_keeps_first seen l1 r l2 :
  CAMIS r ∉ seen → CAMIS r ∉ CAMIS <$> l1 →
  r ∈ drop_duplicates_from seen (l1 ++ r :: l2).
Proof.
  revert seen. induction l1 as [|r0 l1 IH]; intros seen Hseen Hl1; simpl.
  - rewrite decide_False by done. by left.
  - rewrite fmap_cons, not_elem_of_cons in Hl1. destruct Hl1 as [Hne Hl1].
    case_decide as Hr0; [by apply IH|]. right.
    apply IH; [|done]. rewrite elem_of_union, elem_of_singleton. tauto.
Qed.

(** Every identifier of the frame keeps a row. *)
Lemma drop_duplicates_from_covers seen df r :
  r ∈ df → CAMIS r ∉ seen →
  CAMIS r ∈ CAMIS <$> drop_duplicates_from seen df.
Proof.
  revert seen. induction df as [|r0 df IH]; intros seen; simpl.
  - by intros ?%elem_of_nil.
  - intros Hr Hseen. case_decide as Hr0.
    + apply elem_of_cons in Hr as [->|Hr]; [done|by apply IH].
    + rewrite fmap_cons.
      destruct (decide (CAMIS r = CAMIS r0)) as [->|Hne]; [by left|].
      right. apply elem_of_cons in Hr as [->|Hr]; [done|].
      apply IH; [done|]. rewrite elem_of_union, elem_of_singleton. tauto.
Qed.

Lemma StronglySorted_take {A} (R : relation A) n l :
  StronglySorted R l → StronglySorted R (take n l).
Proof.
  intros H. rewrite <- (take_drop n l) in H.
  by apply StronglySorted_app_1_l in H.
Qed.

Lemma iloc_upto_take {A} N (df : list A) : ∃ n, iloc_upto N df = take n df.
Proof. unfold iloc_upto. case_decide; by eexists. Qed.

Lemma iloc_upto_nonneg {A} N (df : list A) :
  0 ≤ N → iloc_upto N df = take (Z.to_nat N) df.
Proof. intros. unfold iloc_upto. by rewrite decide_True. Qed.

(** ** The top-N selector *)

Lemma sorts_no_later_refl d : sorts_no_later d d.
Proof. unfold sorts_no_later, na_last. by destruct d. Qed.

Lemma sorts_no_later_antisym d d' :
  sorts_no_later d d' → sorts_no_later d' d → d = d'.
Proof.
  unfold sorts_no_later, na_last. destruct d, d'; try done.
  intros. f_equal. by apply (anti_symm cell_le).
Qed.

Section selector.
Context {AS : ArgSort}.

Lemma get_top_N_take restos cuisine_type N :
  ∃ n, get_top_N restos cuisine_type N
       = take n (sort_values SCORE true (candidates restos cuisine_type)).
Proof. apply iloc_upto_take. Qed.

Lemma get_top_N_candidate restos cuisine_type N r :
  r ∈ get_top_N restos cuisine_type N → r ∈ candidates restos cuisine_type.
Proof.
  destruct (get_top_N_take restos cuisine_type N) as [n ->].
  intros Hr%subseteq_take. by rewrite sort_values_perm in Hr.
Qed.

Lemma candidates_sublist restos cuisine_type :
  candidates restos cuisine_type
    `sublist_of` sort_values GRADE_DATE false (filter (qualifies cuisine_type) restos).
Proof. apply drop_duplicates_from_sublist. Qed.

Lemma candidate_qualifies restos cuisine_type r :
  r ∈ candidates restos cuisine_type →
  r ∈ filter (qualifies cuisine_type) restos.
Proof.
  intros Hr. rewrite <- (sort_values_perm GRADE_DATE false).
  eapply elem_of_sublist; [done|apply candidates_sublist].
Qed.

Lemma get_top_N_qualifies restos cuisine_type N r :
  r ∈ get_top_N restos cuisine_type N →
  qualifies cuisine_type r ∧ r ∈ restos.
Proof.
  intros Hr%get_top_N_candidate%candidate_qualifies.
  by apply list_elem_of_filter in Hr.
Qed.

Lemma get_top_N_none_qualify restos cuisine_type N :
  (∀ r, r ∈ restos → ¬ qualifies cuisine_type r) →
  get_top_N restos cuisine_type N = [].
Proof.
  intros Hnone.
  destruct (get_top_N restos cuisine_type N) as [|r l] eqn:Hout; [done|].
  destruct (get_top_N_qualifies restos cuisine_type N r) as [Hq Hr].
  { rewrite Hout. by left. }
  by destruct (Hnone r Hr).
Qed.

Lemma candidates_NoDup restos cuisine_type :
  NoDup (CAMIS <$> candidates restos cuisine_type).
Proof. apply drop_duplicates_from_NoDup. Qed.

Lemma get_top_N_NoDup restos cuisine_type N :
  NoDup (CAMIS <$> get_top_N restos cuisine_type N).
Proof.
  destruct (get_top_N_take restos cuisine_type N) as [n ->].
  rewrite fmap_take. eapply sublist_NoDup; [|apply sublist_take].
  rewrite sort_values_perm. apply candidates_NoDup.
Qed.

Lemma candidate_greatest_date_cell restos cuisine_type r r' :
  r ∈ candidates restos cuisine_type →
  r' ∈ restos → qualifies cuisine_type r' → CAMIS r' = CAMIS r →
  sorts_no_later (GRADE_DATE r) (GRADE_DATE r').
Proof.
  intros Hr Hr' Hq Hid.
  apply drop_duplicates_from_first in Hr as (l1 & l2 & Hsplit & Hfirst).
  pose proof (sort_values_sorted GRADE_DATE false
                (filter (qualifies cuisine_type) restos)) as Hsorted.
  assert (r' ∈ l1 ++ r :: l2) as Hin.
  { rewrite <- Hsplit, sort_values_perm. by apply list_elem_of_filter. }
  rewrite Hsplit, fmap_app, fmap_cons in Hsorted.
  apply StronglySorted_app_1_r, StronglySorted_cons in Hsorted as [Hle _].
  apply elem_of_app in Hin as [Hin|Hin].
  { destruct Hfirst. rewrite <- Hid. by apply list_elem_of_fmap_2. }
  apply elem_of_cons in Hin as [->|Hin]; [apply sorts_no_later_refl|].
  rewrite Forall_forall in Hle. by apply Hle, list_elem_of_fmap_2.
Qed.

(** Each qualifying restaurant has a candidate. *)
Lemma candidates_cover restos cuisine_type r :
  r ∈ restos → qualifies cuisine_type r →
  CAMIS r ∈ CAMIS <$> candidates restos cuisine_type.
Proof.
  intros Hr Hq. apply drop_duplicates_from_covers; [|set_solver].
  rewrite sort_values_perm. by apply list_elem_of_filter.
Qed.

Lemma get_top_N_all restos cuisine_type N :
  Z.of_nat (length (candidates restos cuisine_type)) ≤ N →
  get_top_N restos cuisine_type N
  = sort_values SCORE true (candidates restos cuisine_type).
Proof.
  intros HN. unfold get_top_N. rewrite iloc_upto_nonneg by lia.
  apply take_ge.
  rewrite (Permutation_length (sort_values_perm _ _ _)). lia.
Qed.
End selector.

Lemma singleton_of_constant {A B} (f : A → B) (x : A) (l : list A) :
  l ≠ [] → (∀ y, y ∈ l → y = x) → NoDup (f <$> l) → l = [x].
Proof.
  intros Hne Hall Hnd. destruct l as [|a [|b l]]; [done|..].
  - f_equal. apply Hall. by left.
  - assert (a = x) as -> by (apply Hall; by left).
    assert (b = x) as -> by (apply Hall; right; by left).
    rewrite !fmap_cons in Hnd. apply NoDup_cons in Hnd as [Hnd _].
    destruct Hnd. by left.
Qed.

Lemma filter_head_split {A} (P : A → Prop) `{∀ x, Decision (P x)}
    (l : list A) x k :
  filter P l = x :: k →
  ∃ l1 l2, l = l1 ++ x :: l2 ∧ ∀ y, y ∈ l1 → ¬ P y.
Proof.
  induction l as [|a l IH]; [done|].
  rewrite filter_cons. case_decide as Ha.
  - intros [= -> _]. exists [], l. split; [done|]. by intros ? ?%elem_of_nil.
  - intros (l1 & l2 & -> & Hl1)%IH. exists (a :: l1), l2. split; [done|].
    intros y [->|Hy]%elem_of_cons; auto.
Qed.

Lemma sorted_scores_ascending (scores : list (option Z)) (i j : nat) si sj :
  StronglySorted (na_last true) scores →
  (i < j)%nat → scores !! i = Some (Some si) → scores !! j = Some (Some sj) →
  si ≤ sj.
Proof.
  intros Hsorted Hij Hi Hj.
  destruct (list_elem_of_split_length _ _ _ Hi) as (l1 & l2 & Heq & Hlen).
  rewrite Heq in Hsorted, Hj.
  rewrite lookup_app_r, <- Hlen in Hj by lia.
  destruct (j - i)%nat as [|m] eqn:Hm; [lia|]. simpl in Hj.
  apply StronglySorted_app_1_r, StronglySorted_cons in Hsorted as [Hle _].
  rewrite Forall_forall in Hle.
  apply (Hle (Some sj)). eapply list_elem_of_lookup_2, Hj.
Qed.

(** ** Properties of the geocoder *)

Example create_full_address_example :
  create_full_address example_resto = Ok "12 MAIN ST, QUEENS 11354".
Proof. vm_compute. reflexivity. Qed.

(** A restaurant without a zip code has no address: [int] of the NaN raises
    before the service is asked. *)
Example create_full_address_no_zip :
  create_full_address (scenario_record 1 "Thai" "A" 5 "2023-01-01")
  = Raise ValueError.
Proof. reflexivity. Qed.

(** A ['geometry'] that is present and holds no dict (a JSON null) is not a
    missing field: [.get] on it raises. *)
Example get_lat_lon_null_geometry :
  get_lat_lon (λ _, Ok [PyDict {[ "geometry" := PyNone ]}]) example_resto
  = Raise AttributeError.
Proof. vm_compute. reflexivity. Qed.

Lemma not_coordinate_NaN : ¬ is_coordinate PyNaN.
Proof. by intros [q ?]. Qed.

Lemma not_coordinate_None : ¬ is_coordinate PyNone.
Proof. by intros [q ?]. Qed.

(** A call that builds a new frame from the frame at [ref]. *)
Lemma method_call (f : DataFrame → DataFrame) (ref : nat) (h : list (list Row)) df :
  h !! ref = Some df →
  (df' ← load ref; new_frame (f df')) h = Some (length h, h ++ [f df]).
Proof. intros Hdf. unfold mbind, St_bind, load. by rewrite Hdf. Qed.

Lemma method_new (f : DataFrame → DataFrame) (ref : nat) (h : list (list Row)) df :
  h !! ref = Some df →
  (method ref f false ≫= receiver) h = Some (length h, h ++ [f df]).
Proof.
  intros Hdf. unfold method, mbind, St_bind, load, receiver. by rewrite Hdf.
Qed.

Lemma method_inplace (f : DataFrame → DataFrame) (ref : nat) (h : list (list Row)) df :
  h !! ref = Some df →
  method ref f true h = Some (None, <[ref := f df]> h).
Proof.
  intros Hdf. unfold method, mbind, St_bind, load, update_frame.
  rewrite Hdf. rewrite decide_True; [done|]. by eapply lookup_lt_Some.
Qed.

(** With [inplace=True] the receiver is changed: the model tells the two
    kinds of call apart. *)
Example sort_values_inplace_changes_receiver :
  sort_values_obj (AS:=stable_argsort) 0 SCORE true true [scenario_table]
  = Some (None, [[ scenario_record 2 "Thai" "C" 2 "2023-01-01";
                   scenario_record 1 "Thai" "A" 5 "2023-01-01";
                   scenario_record 1 "Thai" "B" 9 "2023-02-01" ]]).
Proof. by vm_compute. Qed.

Lemma lookup_new {A} (h : list A) x : (h ++ [x]) !! length h = Some x.
Proof. by apply list_lookup_middle. Qed.

Lemma get_top_N_obj_run {AS : ArgSort} restos cuisine_type N h df :
  h !! restos = Some df →
  ∃ out fresh,
    get_top_N_obj restos cuisine_type N h = Some (out, h ++ fresh)
    ∧ (h ++ fresh) !! out = Some (get_top_N df cuisine_type N)
    ∧ (length h ≤ out)%nat.
Proof.
  intros Hdf. unfold get_top_N_obj.
  unfold loc_obj, sort_values_obj, drop_duplicates_obj, iloc_upto_obj.
  unfold mbind at 1, St_bind at 1.
  rewrite (method_call (filter (qualifies cuisine_type)) _ _ _ Hdf).
  unfold mbind at 1, St_bind at 1.
  rewrite (method_new (sort_values GRADE_DATE false) _ _ _ (lookup_new _ _)).
  unfold mbind at 1, St_bind at 1.
  rewrite (method_new drop_duplicates _ _ _ (lookup_new _ _)).
  unfold mbind at 1, St_bind at 1.
  rewrite (method_new (sort_values SCORE true) _ _ _ (lookup_new _ _)).
  unfold mbind at 1, St_bind at 1.
  rewrite (method_call (iloc_upto N) _ _ _ (lookup_new _ _)).
  unfold mret, St_ret. eexists _, _. split_and!.
  - rewrite <- !app_assoc. reflexivity.
  - rewrite !app_assoc. apply lookup_new.
  - rewrite !length_app. lia.
Qed.

(** ** More about the selector *)

Lemma candidates_identifiers {AS : ArgSort} restos cuisine_type :
  CAMIS <$> candidates restos cuisine_type
  ≡ₚ remove_dups (CAMIS <$> filter (qualifies cuisine_type) restos).
Proof.
  apply NoDup_Permutation; [apply candidates_NoDup|apply NoDup_remove_dups|].
  intros id. rewrite elem_of_remove_dups. split.
  - intros (r & -> & Hr)%list_elem_of_fmap.
    by apply list_elem_of_fmap_2, candidate_qualifies.
  - intros (r & -> & [Hq Hr]%list_elem_of_filter)%list_elem_of_fmap.
    by apply candidates_cover.
Qed.

Lemma read_data_set_loaded download df cuisines :
  read_data_set download = Ok (df, cuisines) →
  download = Ok df ∧ cuisines = unique (CUISINE_DESCRIPTION <$> df).
Proof.
  unfold read_data_set. destruct download as [df'|e]; simpl; [|done].
  by intros [= -> <-].
Qed.

(** ** The loader and the drop-down *)

Lemma unique_from_sublist seen values :
  unique_from seen values `sublist_of` values.
Proof.
  revert seen. induction values as [|v values IH]; intros seen; simpl; [done|].
  case_decide; [by apply sublist_cons|by apply sublist_skip].
Qed.

Lemma elem_of_unique_from seen values v :
  v ∈ unique_from seen values ↔ v ∈ values ∧ v ∉ seen.
Proof.
  revert seen. induction values as [|v0 values IH]; intros seen; simpl.
  - rewrite elem_of_nil. tauto.
  - case_decide as Hv0.
    + rewrite IH, elem_of_cons. split; [tauto|].
      intros [[->|?] ?]; tauto.
    + rewrite !elem_of_cons, IH, elem_of_union, elem_of_singleton.
      destruct (decide (v = v0)) as [->|]; tauto.
Qed.

Lemma unique_from_NoDup seen values : NoDup (unique_from seen values).
Proof.
  revert seen. induction values as [|v values IH]; intros seen; simpl;
    [constructor|].
  case_decide; [apply IH|]. constructor; [|apply IH].
  rewrite elem_of_unique_from, elem_of_union, elem_of_singleton. tauto.
Qed.

(** A value listed before another one first appears before every
    appearance of the other. *)
Lemma unique_from_order seen values (i j : nat) c1 c2 :
  (i < j)%nat →
  unique_from seen values !! i = Some c1 →
  unique_from seen values !! j = Some c2 →
  ∃ k : nat, values !! k = Some c1
             ∧ ∀ k' : nat, values !! k' = Some c2 → (k < k')%nat.
Proof.
  revert seen i j.
  induction values as [|v values IH]; intros seen i j Hij Hi Hj; [done|].
  simpl in Hi, Hj. case_decide as Hv.
  - destruct (IH _ _ _ Hij Hi Hj) as (k & Hk & Hfirst).
    exists (S k). split; [done|]. intros [|k'] Hk'; [|apply Hfirst in Hk'; lia].
    simplify_eq/=. apply list_elem_of_lookup_2, elem_of_unique_from in Hj.
    tauto.
  - assert (c2 ≠ v) as Hne.
    { destruct j as [|j]; [lia|]. simpl in Hj.
      apply list_elem_of_lookup_2, elem_of_unique_from in Hj.
      rewrite elem_of_union, elem_of_singleton in Hj. intros ->. tauto. }
    destruct i as [|i].
    + simplify_eq/=. exists 0%nat. split; [done|].
      intros [|k'] Hk'; [|lia]. by simplify_eq/=.
    + destruct j as [|j]; [lia|]. simpl in Hi, Hj.
      destruct (IH _ i j ltac:(lia) Hi Hj) as (k & Hk & Hfirst).
      exists (S k). split; [done|].
      intros [|k'] Hk'; [by simplify_eq/=|apply Hfirst in Hk'; lia].
Qed.

(** ** More about the geocoder *)

Lemma py_int_floor (q : Q) (z : Z) :
  0 ≤ z → (inject_Z z <= q)%Q → (q < inject_Z (z + 1))%Q → py_int (Some q) = Ok z.
Proof.
  destruct q as [n d]. unfold Qle, Qlt, py_int. simpl. intros Hz Hle Hlt.
  f_equal. symmetry. apply (Z.quot_unique _ _ _ (n - z * Z.pos d)); nia.
Qed.

Lemma get_lat_lon_inv geocode resto p :
  get_lat_lon geocode resto = Ok p →
  name p = DBA resto
  ∧ ∃ address results,
      create_full_address resto = Ok address ∧ geocode address = Ok results.
Proof.
  unfold get_lat_lon.
  destruct (create_full_address resto) as [address|e]; simpl; [|done].
  destruct (geocode address) as [results|e] eqn:Hres; simpl; [|done].
  intros Hout. split; [|by eauto].
  case_decide; [|by injection Hout as <-].
  destruct (py_first results) as [first|]; simpl in Hout; [|done].
  destruct (py_get first "geometry" (PyDict ∅)) as [g|]; simpl in Hout; [|done].
  destruct (py_get g "location" (PyDict ∅)) as [l|]; simpl in Hout; [|done].
  destruct (py_get l "lat" PyNone); simpl in Hout; [|done].
  destruct (py_get l "lng" PyNone); simpl in Hout; [|done].
  by injection Hout as <-.
Qed.

Lemma find_lat_lon_cons geocode resto rest :
  find_lat_lon geocode (resto :: rest)
  = (p ← get_lat_lon geocode resto;
     ps ← find_lat_lon geocode rest;
     Ok (p :: ps)).
Proof. reflexivity. Qed.

Lemma find_lat_lon_Forall2 geocode top_ten ps :
  find_lat_lon geocode top_ten = Ok ps
  ↔ Forall2 (λ resto p, get_lat_lon geocode resto = Ok p) top_ten ps.
Proof.
  revert ps. induction top_ten as [|resto rest IH]; intros ps.
  - simpl. split; [by intros [= <-]; constructor|by inversion 1].
  - rewrite find_lat_lon_cons. split.
    + destruct (get_lat_lon geocode resto) as [p|] eqn:Hp; simpl; [|done].
      destruct (find_lat_lon geocode rest) as [ps'|] eqn:Hps; simpl; [|done].
      intros [= <-]. constructor; [done|]. by apply IH.
    + inversion 1 as [|? p ? ps' Hp Hps]; subst.
      apply IH in Hps. by rewrite Hp, Hps.
Qed.

Lemma find_lat_lon_names geocode top_ten ps :
  find_lat_lon geocode top_ten = Ok ps → name <$> ps = DBA <$> top_ten.
Proof.
  rewrite find_lat_lon_Forall2. induction 1 as [|resto p rest ps Hp _ IH]; [done|].
  rewrite !fmap_cons, IH. f_equal. by apply get_lat_lon_inv in Hp as [-> _].
Qed.

Lemma find_lat_lon_raises geocode before resto after e :
  Forall (λ r, ∃ p, get_lat_lon geocode r = Ok p) before →
  get_lat_lon geocode resto = Raise e →
  find_lat_lon geocode (before ++ resto :: after) = Raise e.
Proof.
  intros Hbefore Hresto. induction Hbefore as [|r before [p Hp] _ IH].
  - simpl app. by rewrite find_lat_lon_cons, Hresto.
  - rewrite <- app_comm_cons, find_lat_lon_cons, Hp. simpl. by rewrite IH.
Qed.

Lemma get_lat_lon_no_zip geocode resto :
  ZIPCODE resto = None → get_lat_lon geocode resto = Raise ValueError.
Proof. intros Hzip. unfold get_lat_lon, create_full_address. by rewrite Hzip. Qed.

Lemma find_lat_lon_no_zip geocode top_ten resto :
  resto ∈ top_ten → ZIPCODE resto = None →
  ∃ e, find_lat_lon geocode top_ten = Raise e.
Proof.
  intros Hin Hzip. induction top_ten as [|r rest IH]; [by apply elem_of_nil in Hin|].
  rewrite find_lat_lon_cons.
  destruct (get_lat_lon geocode r) as [p|e] eqn:Hp; simpl; [|by eauto].
  apply elem_of_cons in Hin as [->|Hin].
  { by rewrite get_lat_lon_no_zip in Hp. }
  destruct (IH Hin) as [e ->]. simpl. by eauto.
Qed.

(** ** The table and the map *)

Lemma gather_app_l {A} (xs ys : list A) indexer :
  Forall (λ i, (i < length xs)%nat) indexer →
  gather (xs ++ ys) indexer = gather xs indexer.
Proof.
  induction 1 as [|i indexer Hi _ IH]; [done|].
  by rewrite !gather_cons, lookup_app_l, IH.
Qed.

Lemma gather_beyond {A} (xs : list A) indexer :
  Forall (λ i, (length xs ≤ i)%nat) indexer → gather xs indexer = [].
Proof.
  induction 1 as [|i indexer Hi _ IH]; [done|].
  by rewrite gather_cons, lookup_ge_None_2.
Qed.

Lemma gather_range {A} (xs : list A) (n : nat) :
  gather xs (seq 0 n) = take n xs.
Proof.
  destruct (decide (n ≤ length xs)%nat) as [Hle|Hgt].
  - rewrite <- (take_drop n xs) at 1.
    rewrite gather_app_l.
    + replace (seq 0 n) with (seq 0 (length (take n xs)))
        by by rewrite length_take_le.
      apply gather_seq.
    + apply Forall_seq. intros i Hi. rewrite length_take. lia.
  - replace n with (length xs + (n - length xs))%nat at 1 by lia.
    rewrite seq_app, gather_app, gather_seq, gather_beyond, app_nil_r.
    + symmetry. apply take_ge. lia.
    + apply Forall_seq. intros i Hi. lia.
Qed.

Lemma generate_table_eq dataframe max_rows :
  generate_table dataframe max_rows
  = Table "output-table"
      (Tr ((λ col, Th col) <$> columns dataframe)
       :: ((λ row, Tr ((λ col, Td (row col)) <$> columns dataframe))
             <$> take (Z.to_nat max_rows) (rows dataframe))).
Proof.
  unfold generate_table, py_range. rewrite gather_range. simpl. do 3 f_equal.
  destruct (decide (Z.of_nat (length (rows dataframe)) ≤ max_rows)).
  - rewrite Z.min_l, Nat2Z.id by done. rewrite !take_ge; [done|lia..].
  - by rewrite Z.min_r by lia.
Qed.

Lemma get_top_N_kw_at_most_ten {AS : ArgSort} restos cuisine_type :
  (length (get_top_N_kw restos cuisine_type None) ≤ 10)%nat.
Proof.
  unfold get_top_N_kw, get_top_N.
  rewrite iloc_upto_nonneg, length_take by done.
  change (Z.to_nat (default default_N None)) with 10%nat. lia.
Qed.

Lemma plot_map_inv {AS : ArgSort} geocode iplot token restos cuisine_type fig :
  plot_map geocode iplot token restos cuisine_type = Ok fig →
  ∃ lat_lons trace,
    find_lat_lon geocode (get_top_N restos cuisine_type 10) = Ok lat_lons
    ∧ data fig = [trace]
    ∧ trace_lon trace = lon <$> lat_lons
    ∧ trace_lat trace = lat <$> lat_lons
    ∧ trace_text trace = name <$> lat_lons
    ∧ accesstoken (mapbox (layout fig)) = token
    ∧ iplot fig false = Ok ().
Proof.
  unfold plot_map.
  change (get_top_N_kw restos (Some cuisine_type) None)
    with (get_top_N restos cuisine_type 10).
  cbv zeta.
  destruct (find_lat_lon geocode (get_top_N restos cuisine_type 10))
    as [lat_lons|e]; [|done].
  simpl. match goal with |- context [iplot ?f false] =>
    destruct (iplot f false) as [[]|e] eqn:Hshow; [|done] end.
  intros [= <-]. eexists _, _. split_and!; try reflexivity. exact Hshow.
Qed.

Lemma print_table_eq {AS : ArgSort} (DF : DataFrame) value :
  print_table DF value
  = Table "output-table"
      (Tr [Th "DBA"; Th "BUILDING"; Th "STREET"; Th "BORO"; Th "ZIPCODE"]
       :: ((λ r, Tr [Td (PyStr (DBA r)); Td (PyStr (BUILDING r));
                     Td (PyStr (STREET r)); Td (PyStr (BORO r));
                     Td (from_option PyFloat PyNaN (ZIPCODE r))])
             <$> get_top_N DF value 10)).
Proof.
  unfold print_table, generate_table_kw. rewrite generate_table_eq. simpl.
  rewrite take_ge.
  - by rewrite <- list_fmap_compose.
  - rewrite length_fmap. apply get_top_N_kw_at_most_ten.
Qed.

Lemma plot_map_raises {AS : ArgSort} geocode iplot token restos cuisine_type e :
  find_lat_lon geocode (get_top_N restos cuisine_type 10) = Raise e →
  plot_map geocode iplot token restos cuisine_type = Raise e.
Proof.
  intros Hfind. unfold plot_map.
  change (get_top_N_kw restos (Some cuisine_type) None)
    with (get_top_N restos cuisine_type 10).
  cbv zeta. by rewrite Hfind.
Qed.

Lemma plot_map_returns {AS : ArgSort} geocode iplot token restos cuisine_type
    lat_lons :
  find_lat_lon geocode (get_top_N restos cuisine_type 10) = Ok lat_lons →
  ∃ fig trace,
    plot_map geocode iplot token restos cuisine_type
    = (_ ← iplot fig false; Ok fig)
    ∧ data fig = [trace]
    ∧ trace_lon trace = lon <$> lat_lons
    ∧ trace_lat trace = lat <$> lat_lons
    ∧ trace_text trace = name <$> lat_lons.
Proof.
  intros Hfind. unfold plot_map.
  change (get_top_N_kw restos (Some cuisine_type) None)
    with (get_top_N restos cuisine_type 10).
  cbv zeta. rewrite Hfind. eexists _, _. split_and!; reflexivity.
Qed.

(** Closed decidable facts are settled by evaluating their decision
    procedure. *)
Ltac by_decide :=
  match goal with
  | |- ?P => apply (bool_decide_unpack P); vm_compute; exact I
  end.

(** * Part III: the properties of the specification *)

(** C1 does not hold of the code: ['GRADE DATE'] is sorted as the text that
    [read_csv] stored, and in the feed's month/day/year a later day can be
    the smaller text.  Of a restaurant graded on 12/31/2022 (score 5) and on
    01/15/2023 (score 9), [get_top_N] returns the record of 12/31/2022 alone,
    whatever the sorting algorithm, although the other qualifying record of
    the restaurant was graded after it. *)
Theorem get_top_N_keeps_older_grading {AS : ArgSort} :
  get_top_N regraded_table "Thai" 10 = [scenario_record 1 "Thai" "A" 5 "12/31/2022"]
  ∧ scenario_record 1 "Thai" "B" 9 "01/15/2023" ∈ regraded_table
  ∧ qualifies "Thai" (scenario_record 1 "Thai" "B" 9 "01/15/2023")
  ∧ CAMIS (scenario_record 1 "Thai" "B" 9 "01/15/2023")
    = CAMIS (scenario_record 1 "Thai" "A" 5 "12/31/2022")
  ∧ graded_before (scenario_record 1 "Thai" "A" 5 "12/31/2022")
      (scenario_record 1 "Thai" "B" 9 "01/15/2023").
Proof.
  set (old := scenario_record 1 "Thai" "A" 5 "12/31/2022").
  set (new := scenario_record 1 "Thai" "B" 9 "01/15/2023").
  split_and!.
  - assert (∀ r, r ∈ candidates regraded_table "Thai" → r = old) as Hall.
    { intros r Hr. pose proof (candidate_qualifies _ _ _ Hr) as Hq.
      change (r ∈ [old; new]) in Hq.
      apply elem_of_cons in Hq as [->|Hq]; [done|].
      apply list_elem_of_singleton in Hq as ->. exfalso.
      assert (sorts_no_later (GRADE_DATE new) (GRADE_DATE old)) as Hrec.
      { eapply candidate_greatest_date_cell; [exact Hr| |by_decide|done]. by left. }
      vm_compute in Hrec. discriminate. }
    assert (candidates regraded_table "Thai" = [old]) as Hcand.
    { apply (singleton_of_constant CAMIS); [|done|apply candidates_NoDup].
      intros Hnil.
      assert (CAMIS old ∈ CAMIS <$> candidates regraded_table "Thai") as Hin.
      { apply candidates_cover; [by left|by_decide]. }
      rewrite Hnil in Hin. by apply elem_of_nil in Hin. }
    rewrite get_top_N_all by (rewrite Hcand; simpl; lia).
    apply Permutation_singleton_r. rewrite sort_values_perm. by rewrite Hcand.
  - right. by left.
  - by_decide.
  - reflexivity.
  - exists (2022, 12, 31), (2023, 1, 15). split_and!; [by vm_compute..|].
    unfold day_before. lia.
Qed.




(** On the two rows of [tie_table] the same quicksort is an insertion sort,
    and the first of the two tied records is the one kept. *)
Example first_of_ties_kept_short_table :
  candidates (AS:=numpy_quicksort) tie_table "Thai"
  = [scenario_record 7 "Thai" "A" 5 "2023-02-01"].
Proof. by vm_compute. Qed.

(** C3: every record in the result of [get_top_N] has grade 'A' or 'B' and
    its cuisine is the requested string, character for character. *)
Theorem get_top_N_grade_and_cuisine {AS : ArgSort} restos cuisine_type N :
  Forall (λ r, (GRADE r = Some "A" ∨ GRADE r = Some "B")
               ∧ CUISINE_DESCRIPTION r = cuisine_type)
    (get_top_N restos cuisine_type N).
Proof.
  apply Forall_forall. intros r Hr. by apply get_top_N_qualifies in Hr as [Hq _].
Qed.

(** The comparison is case sensitive. *)
Example get_top_N_lower_case {AS : ArgSort} :
  get_top_N scenario_table "thai" 10 = [].
Proof.
  apply get_top_N_none_qualify. intros r Hr [_ Hc].
  repeat (apply elem_of_cons in Hr as [->|Hr]; [discriminate|]).
  by apply elem_of_nil in Hr.
Qed.

(** C4: the scores of the result of [get_top_N] are in ascending order, the
    records without a score coming last; in particular, of two scores in the
    result the earlier one is not the greater. *)
Theorem get_top_N_sorted_by_score {AS : ArgSort} restos cuisine_type N :
  StronglySorted (na_last true) (SCORE <$> get_top_N restos cuisine_type N)
  ∧ ∀ (i j : nat) ri rj si sj,
      (i < j)%nat →
      get_top_N restos cuisine_type N !! i = Some ri → SCORE ri = Some si →
      get_top_N restos cuisine_type N !! j = Some rj → SCORE rj = Some sj →
      si ≤ sj.
Proof.
  assert (StronglySorted (na_last true)
            (SCORE <$> get_top_N restos cuisine_type N)) as Hsorted.
  { destruct (get_top_N_take restos cuisine_type N) as [n ->].
    rewrite fmap_take. apply StronglySorted_take, sort_values_sorted. }
  split; [done|]. intros i j ri rj si sj Hij Hi Hsi Hj Hsj.
  apply (sorted_scores_ascending _ i j si sj Hsorted Hij).
  - by rewrite list_lookup_fmap, Hi, <- Hsi.
  - by rewrite list_lookup_fmap, Hj, <- Hsj.
Qed.

(** C5, as the code has it: for N ≥ 0 the result has at most N records and at
    most as many as there are candidates (qualifying records, one per
    restaurant); when there are no more than N candidates all of them are
    returned and nothing else; when no record qualifies the result is empty;
    and N is 10 when it is not given. *)
Theorem get_top_N_length {AS : ArgSort} restos cuisine_type N :
  0 ≤ N →
  Z.of_nat (length (get_top_N restos cuisine_type N)) ≤ N
  ∧ (length (get_top_N restos cuisine_type N)
     ≤ length (candidates restos cuisine_type))%nat
  ∧ (Z.of_nat (length (candidates restos cuisine_type)) ≤ N →
     get_top_N restos cuisine_type N ≡ₚ candidates restos cuisine_type)
  ∧ (filter (qualifies cuisine_type) restos = [] →
     get_top_N restos cuisine_type N = [])
  ∧ get_top_N_kw restos (Some cuisine_type) None = get_top_N restos cuisine_type 10.
Proof.
  intros HN. split_and!.
  - unfold get_top_N. rewrite iloc_upto_nonneg, length_take by done. lia.
  - destruct (get_top_N_take restos cuisine_type N) as [n ->].
    rewrite length_take, (Permutation_length (sort_values_perm _ _ _)). lia.
  - intros Hall. rewrite get_top_N_all by done. apply sort_values_perm.
  - intros Hnone. apply get_top_N_none_qualify. intros r Hr Hq.
    eapply filter_nil_not_elem_of; [exact Hnone|exact Hq|exact Hr].
  - reflexivity.
Qed.

Lemma get_top_N_length_witness :
  0 ≤ 10
  ∧ Z.of_nat (length (get_top_N (AS:=stable_argsort) three_restaurants "Thai" 10)) ≤ 10
  ∧ (length (get_top_N (AS:=stable_argsort) three_restaurants "Thai" 10) = 3)%nat.
Proof.
  split; [lia|]. split; [|by vm_compute].
  apply (get_top_N_length (AS:=stable_argsort) three_restaurants "Thai" 10). lia.
Defined.

(** C5, as the specification states it for every N, fails for a negative N:
    the slice [iloc[:-1]] drops the last record only. *)
Lemma get_top_N_negative_N :
  length (get_top_N (AS:=stable_argsort) three_restaurants "Thai" (-1)) = 2%nat
  ∧ ¬ (Z.of_nat (length (get_top_N (AS:=stable_argsort) three_restaurants "Thai" (-1)))
       ≤ -1).
Proof. split; [by vm_compute|lia]. Qed.

(** C6: [get_top_N] is a function of the table, the cuisine and N, and it
    changes no frame.  Run on the shared store it returns a new object
    holding [get_top_N] of the table's rows, whatever else the store holds;
    every object that existed before the call (the table among them) has the
    rows it had; and a second call with the same arguments returns an object
    with the same rows. *)
Theorem get_top_N_pure {AS : ArgSort} restos cuisine_type N h df :
  h !! restos = Some df →
  ∃ out h',
    get_top_N_obj restos cuisine_type N h = Some (out, h')
    ∧ h' !! out = Some (get_top_N df cuisine_type N)
    ∧ (length h ≤ out)%nat
    ∧ (∀ ref, (ref < length h)%nat → h' !! ref = h !! ref)
    ∧ ∃ out2 h'',
        get_top_N_obj restos cuisine_type N h' = Some (out2, h'')
        ∧ h'' !! out2 = h' !! out
        ∧ h'' !! restos = Some df.
Proof.
  intros Hdf.
  destruct (get_top_N_obj_run restos cuisine_type N h df Hdf)
    as (out & fresh & Hrun & Hout & Hnew).
  assert ((h ++ fresh) !! restos = Some df) as Hdf'
    by by apply lookup_app_l_Some.
  destruct (get_top_N_obj_run restos cuisine_type N (h ++ fresh) df Hdf')
    as (out2 & fresh2 & Hrun2 & Hout2 & _).
  exists out, (h ++ fresh). split_and!; [done..| |].
  - intros ref Href. by apply lookup_app_l.
  - exists out2, ((h ++ fresh) ++ fresh2). split_and!; [done| |].
    + by rewrite Hout, Hout2.
    + by apply lookup_app_l_Some.
Qed.

Lemma get_top_N_pure_witness :
  [scenario_table] !! 0%nat = Some scenario_table
  ∧ ∃ out h',
      get_top_N_obj (AS:=stable_argsort) 0 "Thai" 10 [scenario_table] = Some (out, h')
      ∧ h' !! out = Some (get_top_N (AS:=stable_argsort) scenario_table "Thai" 10)
      ∧ h' !! 0%nat = Some scenario_table.
Proof.
  split; [reflexivity|].
  destruct (get_top_N_pure (AS:=stable_argsort) 0 "Thai" 10 [scenario_table]
              scenario_table eq_refl)
    as (out & h' & Hrun & Hout & _ & Hkeep & _).
  exists out, h'. split_and!; [done..|].
  rewrite Hkeep; [reflexivity|simpl; lia].
Defined.

(** C7: when the service answers the address of a restaurant with no match,
    [get_lat_lon] returns, without raising, the GeoPoint of the restaurant's
    name whose two coordinates are NaN, which is no coordinate value (so not
    the point (0, 0)). *)
Theorem get_lat_lon_no_match geocode resto address :
  create_full_address resto = Ok address →
  geocode address = Ok [] →
  get_lat_lon geocode resto
    = Ok {| name := DBA resto; lat := PyNaN; lon := PyNaN |}
  ∧ ∀ p, get_lat_lon geocode resto = Ok p →
         name p = DBA resto ∧ ¬ is_coordinate (lat p) ∧ ¬ is_coordinate (lon p)
         ∧ lat p ≠ PyFloat 0 ∧ lon p ≠ PyFloat 0.
Proof.
  intros Haddr Hres.
  assert (get_lat_lon geocode resto
          = Ok {| name := DBA resto; lat := PyNaN; lon := PyNaN |}) as Hout.
  { unfold get_lat_lon. rewrite Haddr. simpl. by rewrite Hres. }
  split; [done|]. intros p Hp. rewrite Hout in Hp. injection Hp as <-. simpl.
  split_and!; [done|apply not_coordinate_NaN|apply not_coordinate_NaN|done..].
Qed.

Lemma get_lat_lon_no_match_witness :
  create_full_address example_resto = Ok "12 MAIN ST, QUEENS 11354"
  ∧ no_match_service "12 MAIN ST, QUEENS 11354" = Ok []
  ∧ get_lat_lon no_match_service example_resto
    = Ok {| name := "THAI HOUSE"; lat := PyNaN; lon := PyNaN |}.
Proof.
  split; [by vm_compute|]. split; [reflexivity|].
  apply (get_lat_lon_no_match no_match_service example_resto
           "12 MAIN ST, QUEENS 11354"); [by vm_compute|reflexivity].
Defined.

(** C8: when the service answers with one or more matches, the latitude and
    longitude of the GeoPoint are those of the first match, and the matches
    after the first have no influence on the result. *)
Theorem get_lat_lon_first_match geocode resto address first rest :
  create_full_address resto = Ok address →
  geocode address = Ok (first :: rest) →
  (∀ d g l la lo,
     first = PyDict d →
     d !! "geometry" = Some (PyDict g) →
     g !! "location" = Some (PyDict l) →
     l !! "lat" = Some la → l !! "lng" = Some lo →
     get_lat_lon geocode resto = Ok {| name := DBA resto; lat := la; lon := lo |})
  ∧ (∀ geocode' rest',
       geocode' address = Ok (first :: rest') →
       get_lat_lon geocode' resto = get_lat_lon geocode resto).
Proof.
  intros Haddr Hres. split.
  - intros d g l la lo -> Hg Hl Hla Hlo.
    unfold get_lat_lon. rewrite Haddr. simpl. rewrite Hres. simpl.
    rewrite Hg. simpl. rewrite Hl. simpl. by rewrite Hla, Hlo.
  - intros geocode' rest' Hres'.
    unfold get_lat_lon. rewrite Haddr. simpl. by rewrite Hres, Hres'.
Qed.

Lemma get_lat_lon_first_match_witness :
  get_lat_lon two_match_service example_resto
  = Ok {| name := "THAI HOUSE"; lat := PyFloat (407 # 10); lon := PyFloat (-740 # 10) |}
  ∧ get_lat_lon one_match_service example_resto
    = get_lat_lon two_match_service example_resto.
Proof.
  destruct (get_lat_lon_first_match two_match_service example_resto
              "12 MAIN ST, QUEENS 11354"
              (match_at (407 # 10) (-740 # 10))
              [match_at (515 # 10) (-1 # 10)]) as [Hfirst Hrest];
    [by vm_compute|reflexivity|].
  split.
  - eapply Hfirst; [reflexivity|by vm_compute..].
  - apply (Hrest one_match_service []). reflexivity.
Defined.

(** C9: for a cuisine that no record of the table has, [get_top_N] returns
    the empty frame. *)
Theorem get_top_N_unknown_cuisine {AS : ArgSort} restos cuisine_type N :
  (∀ r, r ∈ restos → CUISINE_DESCRIPTION r ≠ cuisine_type) →
  get_top_N restos cuisine_type N = [].
Proof.
  intros Hnone. apply get_top_N_none_qualify.
  intros r Hr [_ Hc]. by destruct (Hnone r Hr).
Qed.

Lemma get_top_N_unknown_cuisine_witness :
  (∀ r, r ∈ scenario_table → CUISINE_DESCRIPTION r ≠ "Sushi")
  ∧ get_top_N (AS:=stable_argsort) scenario_table "Sushi" 10 = [].
Proof.
  assert (∀ r, r ∈ scenario_table → CUISINE_DESCRIPTION r ≠ "Sushi") as H.
  { intros r Hr.
    repeat (apply elem_of_cons in Hr as [->|Hr]; [discriminate|]).
    by apply elem_of_nil in Hr. }
  split; [exact H|].
  exact (get_top_N_unknown_cuisine (AS:=stable_argsort) scenario_table "Sushi" 10 H).
Defined.

(** C10: when the first match of a non-empty response is a dict in which
    ['geometry'] is missing, or in whose geometry ['location'] is missing, or
    in whose location ['lat'] or ['lng'] is missing, [get_lat_lon] does not
    raise: it returns the GeoPoint of the restaurant's name in which each
    coordinate whose field is missing is [None]. *)
Theorem get_lat_lon_missing_fields geocode resto address d rest :
  create_full_address resto = Ok address →
  geocode address = Ok (PyDict d :: rest) →
  (d !! "geometry" = None →
   get_lat_lon geocode resto
     = Ok {| name := DBA resto; lat := PyNone; lon := PyNone |})
  ∧ (∀ g, d !! "geometry" = Some (PyDict g) → g !! "location" = None →
     get_lat_lon geocode resto
       = Ok {| name := DBA resto; lat := PyNone; lon := PyNone |})
  ∧ (∀ g l, d !! "geometry" = Some (PyDict g) →
     g !! "location" = Some (PyDict l) →
     get_lat_lon geocode resto
       = Ok {| name := DBA resto;
               lat := default PyNone (l !! "lat");
               lon := default PyNone (l !! "lng") |}).
Proof.
  intros Haddr Hres.
  assert (get_lat_lon geocode resto
          = (geometry ← py_get (PyDict d) "geometry" (PyDict ∅);
             location ← py_get geometry "location" (PyDict ∅);
             lat ← py_get location "lat" PyNone;
             geometry' ← py_get (PyDict d) "geometry" (PyDict ∅);
             location' ← py_get geometry' "location" (PyDict ∅);
             lon ← py_get location' "lng" PyNone;
             Ok {| name := DBA resto; lat := lat; lon := lon |})) as ->.
  { unfold get_lat_lon. rewrite Haddr. simpl. by rewrite Hres. }
  split_and!.
  - intros Hg. simpl. by rewrite Hg.
  - intros g Hg Hl. simpl. rewrite Hg. simpl. by rewrite Hl.
  - intros g l Hg Hl. simpl. rewrite Hg. simpl. by rewrite Hl.
Qed.

Lemma get_lat_lon_missing_fields_witness :
  get_lat_lon bare_match_service example_resto
  = Ok {| name := "THAI HOUSE"; lat := PyNone; lon := PyNone |}.
Proof.
  destruct (get_lat_lon_missing_fields bare_match_service example_resto
              "12 MAIN ST, QUEENS 11354" ∅ []) as (Hnone & _ & _);
    [by vm_compute|reflexivity|].
  apply Hnone. reflexivity.
Defined.

(** * Part IV: further properties of the module *)

(** X1: the number of records [get_top_N] returns, for every N: the smaller
    of N and the number of candidates when N is not negative, and the number
    of candidates less |N| (or none) when N is negative. *)
Theorem get_top_N_exact_length {AS : ArgSort} restos cuisine_type N :
  length (get_top_N restos cuisine_type N)
  = if decide (0 ≤ N)
    then Nat.min (Z.to_nat N) (length (candidates restos cuisine_type))
    else Z.to_nat (Z.of_nat (length (candidates restos cuisine_type)) + N).
Proof.
  unfold get_top_N, iloc_upto.
  case_decide; rewrite length_take;
    rewrite !(Permutation_length (sort_values_perm SCORE true _)); lia.
Qed.

(** X2: the records returned are those of lowest score: the candidates are
    the result followed by the records left out, and no record left out has a
    score that sorts before the score of a record returned. *)
Theorem get_top_N_lowest_scores {AS : ArgSort} restos cuisine_type N :
  ∃ left_out,
    get_top_N restos cuisine_type N ++ left_out
      ≡ₚ candidates restos cuisine_type
    ∧ ∀ r r', r ∈ get_top_N restos cuisine_type N → r' ∈ left_out →
              na_last true (SCORE r) (SCORE r').
Proof.
  destruct (get_top_N_take restos cuisine_type N) as [n Hn].
  exists (drop n (sort_values SCORE true (candidates restos cuisine_type))).
  rewrite Hn, take_drop. split; [apply sort_values_perm|].
  intros r r' Hr Hr'.
  pose proof (sort_values_sorted SCORE true (candidates restos cuisine_type))
    as Hsorted.
  rewrite <- (take_drop n (sort_values _ _ _)), fmap_app in Hsorted.
  eapply StronglySorted_app_1_elem_of; [exact Hsorted|..];
    by apply list_elem_of_fmap_2.
Qed.

(** X3: asking for more records extends the result: for 0 ≤ N ≤ N' the
    result for N is the beginning of the result for N'. *)
Theorem get_top_N_prefix {AS : ArgSort} restos cuisine_type N N' :
  0 ≤ N → N ≤ N' →
  get_top_N restos cuisine_type N `prefix_of` get_top_N restos cuisine_type N'.
Proof.
  intros HN HN'. unfold get_top_N. rewrite !iloc_upto_nonneg by lia.
  set (ranked := sort_values SCORE true _).
  exists (drop (Z.to_nat N) (take (Z.to_nat N') ranked)).
  rewrite <- (take_drop (Z.to_nat N) (take (Z.to_nat N') ranked)) at 1.
  f_equal. rewrite take_take. f_equal. lia.
Qed.

Lemma get_top_N_prefix_witness :
  0 ≤ 1 ∧ 1 ≤ 2
  ∧ get_top_N (AS:=stable_argsort) three_restaurants "Thai" 1
      `prefix_of` get_top_N (AS:=stable_argsort) three_restaurants "Thai" 2.
Proof.
  split; [lia|]. split; [lia|].
  apply (get_top_N_prefix (AS:=stable_argsort) three_restaurants "Thai" 1 2); lia.
Defined.

(** X4: when N is at least the number of restaurants that have a qualifying
    record, the result holds each of these restaurants exactly once. *)
Theorem get_top_N_every_restaurant {AS : ArgSort} restos cuisine_type N :
  Z.of_nat (length (remove_dups (CAMIS <$> filter (qualifies cuisine_type) restos)))
    ≤ N →
  CAMIS <$> get_top_N restos cuisine_type N
  ≡ₚ remove_dups (CAMIS <$> filter (qualifies cuisine_type) restos).
Proof.
  intros HN. rewrite <- candidates_identifiers in HN |- *.
  rewrite length_fmap in HN. rewrite get_top_N_all by done.
  by rewrite sort_values_perm.
Qed.

Lemma get_top_N_every_restaurant_witness :
  CAMIS <$> get_top_N (AS:=stable_argsort) scenario_table "Thai" 10 ≡ₚ [1].
Proof.
  apply (get_top_N_every_restaurant (AS:=stable_argsort) scenario_table "Thai" 10).
  vm_compute. discriminate.
Defined.

(** X5: records that do not qualify have no part in the result, wherever
    they stand in the table and whatever their grade date: a restaurant with
    an inspection that is not graded A or B is ranked by one of its
    inspections graded A or B. *)
Theorem get_top_N_ignores_other_records {AS : ArgSort}
    (before others after : DataFrame) cuisine_type N :
  Forall (λ r, ¬ qualifies cuisine_type r) others →
  get_top_N (before ++ others ++ after) cuisine_type N
  = get_top_N (before ++ after) cuisine_type N.
Proof.
  intros Hothers. unfold get_top_N, candidates.
  rewrite !filter_app, (filter_none _ others); [done|].
  by apply Forall_forall.
Qed.

Lemma get_top_N_ignores_other_records_witness :
  get_top_N (AS:=stable_argsort)
    ([scenario_record 1 "Thai" "A" 5 "2023-01-01"]
     ++ [scenario_record 1 "Thai" "C" 40 "2023-06-01"]
     ++ []) "Thai" 10
  = get_top_N (AS:=stable_argsort)
      ([scenario_record 1 "Thai" "A" 5 "2023-01-01"] ++ []) "Thai" 10.
Proof.
  apply (get_top_N_ignores_other_records (AS:=stable_argsort)).
  constructor; [|constructor].
  intros [[[=]|[=]] _].
Defined.

(** X6: when the download succeeds, [read_data_set] returns the table with
    the list of its cuisines: each cuisine of a record once, nothing else, in
    the order in which the cuisines first appear, that is, a cuisine listed
    before another one has a record in the table before every record of the
    other; when the download fails, its exception is the outcome. *)
Theorem read_data_set_cuisines (download : result DataFrame) :
  match download with
  | Ok df =>
      ∃ cuisines,
        read_data_set download = Ok (df, cuisines)
        ∧ NoDup cuisines
        ∧ (∀ c, c ∈ cuisines ↔ ∃ r, r ∈ df ∧ CUISINE_DESCRIPTION r = c)
        ∧ cuisines `sublist_of` (CUISINE_DESCRIPTION <$> df)
        ∧ ∀ (i j : nat) c1 c2,
            (i < j)%nat → cuisines !! i = Some c1 → cuisines !! j = Some c2 →
            ∃ (k : nat) r,
              df !! k = Some r ∧ CUISINE_DESCRIPTION r = c1
              ∧ ∀ (k' : nat) r',
                  df !! k' = Some r' → CUISINE_DESCRIPTION r' = c2 →
                  (k < k')%nat
  | Raise e => read_data_set download = Raise e
  end.
Proof.
  destruct download as [df|e]; [|done].
  eexists.
  split_and!; [reflexivity|apply unique_from_NoDup| |apply unique_from_sublist|].
  - intros c. unfold unique. rewrite elem_of_unique_from, list_elem_of_fmap.
    split.
    + intros [(r & -> & Hr) _]. eauto.
    + intros (r & Hr & <-). split; [eauto|]. apply not_elem_of_empty.
  - intros i j c1 c2 Hij Hi Hj.
    destruct (unique_from_order _ _ _ _ _ _ Hij Hi Hj) as (k & Hk & Hfirst).
    rewrite list_lookup_fmap in Hk.
    destruct (df !! k) as [r|] eqn:Hr; [|done]. simplify_eq/=.
    exists k, r. split_and!; [done..|].
    intros k' r' Hr' Hc. apply Hfirst. by rewrite list_lookup_fmap, Hr', <- Hc.
Qed.

(** X7: the options built from the loaded cuisines have distinct values, each
    shown under its own name, and every cuisine for which [get_top_N] returns a
    record of the loaded table is among them. *)
Theorem dropdown_offers_every_cuisine {AS : ArgSort} download df cuisines :
  read_data_set download = Ok (df, cuisines) →
  NoDup (value <$> get_dropdown_labels cuisines)
  ∧ Forall (λ o, label o = value o) (get_dropdown_labels cuisines)
  ∧ ∀ cuisine_type N,
      get_top_N df cuisine_type N ≠ [] →
      cuisine_type ∈ value <$> get_dropdown_labels cuisines.
Proof.
  intros Hload.
  pose proof (read_data_set_loaded download df cuisines Hload) as [-> ->].
  assert (value <$> get_dropdown_labels (unique (CUISINE_DESCRIPTION <$> df))
          = unique (CUISINE_DESCRIPTION <$> df)) as ->.
  { unfold get_dropdown_labels. rewrite <- list_fmap_compose. apply list_fmap_id. }
  split_and!.
  - apply unique_from_NoDup.
  - unfold get_dropdown_labels. apply Forall_fmap, Forall_true. done.
  - intros c N Hout.
    destruct (get_top_N df c N) as [|r l] eqn:Heq; [done|].
    destruct (get_top_N_qualifies df c N r) as [[_ Hc] Hr].
    { rewrite Heq. by left. }
    unfold unique. rewrite elem_of_unique_from. split; [|apply not_elem_of_empty].
    rewrite <- Hc. by apply list_elem_of_fmap_2.
Qed.

Lemma dropdown_offers_every_cuisine_witness :
  read_data_set (Ok scenario_table) = Ok (scenario_table, ["Thai"])
  ∧ "Thai" ∈ value <$> get_dropdown_labels ["Thai"].
Proof.
  split; [by vm_compute|].
  destruct (dropdown_offers_every_cuisine (AS:=stable_argsort)
              (Ok scenario_table) scenario_table ["Thai"]) as (_ & _ & Hin);
    [by vm_compute|].
  apply (Hin "Thai" 10). by vm_compute.
Defined.

(** X8: a zip code read as a float is written into the address as its
    integer part, without a decimal point: a value from z up to, not
    including, z + 1 gives the digits of z. *)
Theorem create_full_address_integer_zip resto (q : Q) (z : Z) :
  ZIPCODE resto = Some q →
  0 ≤ z → (inject_Z z <= q)%Q → (q < inject_Z (z + 1))%Q →
  create_full_address resto
  = Ok (BUILDING resto +:+ " " +:+ STREET resto +:+ ", "
        +:+ BORO resto +:+ " " +:+ pretty z).
Proof.
  intros Hzip Hz Hle Hlt. unfold create_full_address.
  by rewrite Hzip, (py_int_floor q z).
Qed.

Lemma create_full_address_integer_zip_witness :
  create_full_address fractional_zip_resto = Ok "12 MAIN ST, QUEENS 11354".
Proof.
  rewrite (create_full_address_integer_zip fractional_zip_resto (113549 # 10) 11354);
    [reflexivity|reflexivity|lia|by vm_compute|by vm_compute].
Defined.

(** X9: for a restaurant without a zip code [get_lat_lon] raises ValueError,
    whatever the geocoding service would answer: no GeoPoint is returned. *)
Theorem get_lat_lon_missing_zip geocode resto :
  ZIPCODE resto = None → get_lat_lon geocode resto = Raise ValueError.
Proof. apply get_lat_lon_no_zip. Qed.

Lemma get_lat_lon_missing_zip_witness :
  get_lat_lon two_match_service (scenario_record 1 "Thai" "A" 5 "2023-01-01")
  = Raise ValueError.
Proof.
  apply (get_lat_lon_missing_zip two_match_service
           (scenario_record 1 "Thai" "A" 5 "2023-01-01")).
  reflexivity.
Defined.

(** X10: a failure of the geocoding service is not handled: the exception it
    raises for the address is the outcome of [get_lat_lon]. *)
Theorem get_lat_lon_service_failure geocode resto address e :
  create_full_address resto = Ok address →
  geocode address = Raise e →
  get_lat_lon geocode resto = Raise e.
Proof.
  intros Haddr Hres. unfold get_lat_lon. rewrite Haddr. simpl. by rewrite Hres.
Qed.

Lemma get_lat_lon_service_failure_witness :
  get_lat_lon (λ _, Raise ServiceError) example_resto = Raise ServiceError.
Proof.
  apply (get_lat_lon_service_failure _ _ "12 MAIN ST, QUEENS 11354");
    [by vm_compute|reflexivity].
Defined.

(** X11: a match that is not a dict, or whose ['geometry'] or ['location'] is
    present and is not a dict, makes [get_lat_lon] raise AttributeError. *)
Theorem get_lat_lon_malformed_match geocode resto address first rest :
  create_full_address resto = Ok address →
  geocode address = Ok (first :: rest) →
  (∀ d, first ≠ PyDict d)
  ∨ (∃ d v, first = PyDict d ∧ d !! "geometry" = Some v ∧ ∀ g, v ≠ PyDict g)
  ∨ (∃ d g v, first = PyDict d ∧ d !! "geometry" = Some (PyDict g)
              ∧ g !! "location" = Some v ∧ ∀ l, v ≠ PyDict l) →
  get_lat_lon geocode resto = Raise AttributeError.
Proof.
  intros Haddr Hres Hbad. unfold get_lat_lon. rewrite Haddr. simpl.
  rewrite Hres. simpl.
  destruct Hbad as [Hfirst|[(d & v & -> & Hg & Hv)|(d & g & v & -> & Hg & Hl & Hv)]].
  - destruct first; try done. by destruct (Hfirst d).
  - simpl. rewrite Hg. simpl. destruct v; try done. by destruct (Hv d0).
  - simpl. rewrite Hg. simpl. rewrite Hl. simpl.
    destruct v; try done. by destruct (Hv d0).
Qed.

Lemma get_lat_lon_malformed_match_witness :
  get_lat_lon (λ _, Ok [PyDict {[ "geometry" := PyNone ]}]) example_resto
  = Raise AttributeError.
Proof.
  apply (get_lat_lon_malformed_match _ _ "12 MAIN ST, QUEENS 11354"
           (PyDict {[ "geometry" := PyNone ]}) []);
    [by vm_compute|reflexivity|].
  right. left. exists {[ "geometry" := PyNone ]}, PyNone.
  split_and!; [reflexivity|by vm_compute|done].
Defined.

(** X12: [find_lat_lon] succeeds exactly when [get_lat_lon] succeeds on every
    row, and then returns one GeoPoint per row, in the order of the rows, each
    under the name of its restaurant. *)
Theorem find_lat_lon_all_rows geocode top_ten :
  (∀ ps, find_lat_lon geocode top_ten = Ok ps
         ↔ Forall2 (λ resto p, get_lat_lon geocode resto = Ok p) top_ten ps)
  ∧ (∀ ps, find_lat_lon geocode top_ten = Ok ps →
           length ps = length top_ten ∧ name <$> ps = DBA <$> top_ten).
Proof.
  split; [intros ps; apply find_lat_lon_Forall2|].
  intros ps Hps. split; [|by apply (find_lat_lon_names geocode)].
  apply find_lat_lon_Forall2 in Hps. symmetry. by eapply Forall2_length.
Qed.

(** X13: one row on which [get_lat_lon] raises makes [find_lat_lon] raise the
    same exception, when the rows before it succeed: the GeoPoints of the
    other rows are lost. *)
Theorem find_lat_lon_first_failure geocode before resto after e :
  Forall (λ r, ∃ p, get_lat_lon geocode r = Ok p) before →
  get_lat_lon geocode resto = Raise e →
  find_lat_lon geocode (before ++ resto :: after) = Raise e.
Proof. apply find_lat_lon_raises. Qed.

Lemma find_lat_lon_first_failure_witness :
  find_lat_lon two_match_service
    ([example_resto] ++ scenario_record 1 "Thai" "A" 5 "2023-01-01" :: [example_resto])
  = Raise ValueError.
Proof.
  apply (find_lat_lon_first_failure two_match_service [example_resto]
           (scenario_record 1 "Thai" "A" 5 "2023-01-01") [example_resto] ValueError).
  - apply Forall_cons. split; [|apply Forall_nil_2].
    eexists. vm_compute. reflexivity.
  - reflexivity.
Defined.

(** X14: the table [generate_table] builds has a header row with one cell per
    column, always, followed by one row for each of the first [max_rows]
    records (all of them when there are fewer, none when [max_rows] is zero or
    negative), each with one cell per column. *)
Theorem generate_table_shape dataframe max_rows :
  ∃ body,
    generate_table dataframe max_rows
    = Table "output-table" (Tr ((λ col, Th col) <$> columns dataframe) :: body)
    ∧ length body = Nat.min (Z.to_nat max_rows) (length (rows dataframe))
    ∧ (max_rows ≤ 0 → body = [])
    ∧ Forall (λ tr, ∃ cells, tr = Tr cells
                             ∧ length cells = length (columns dataframe)) body
    ∧ ∀ (i : nat) row,
        (i < Z.to_nat max_rows)%nat → rows dataframe !! i = Some row →
        body !! i = Some (Tr ((λ col, Td (row col)) <$> columns dataframe)).
Proof.
  eexists. split; [apply generate_table_eq|]. split_and!.
  - by rewrite length_fmap, length_take.
  - intros Hle. by replace (Z.to_nat max_rows) with 0%nat by lia.
  - apply Forall_fmap, Forall_true. intros row. eexists. split; [done|].
    by rewrite length_fmap.
  - intros i row Hi Hrow. by rewrite list_lookup_fmap, lookup_take_lt, Hrow.
Qed.

(** X15: the table shown for a cuisine lists every record [get_top_N] returns
    for it with N = 10, in the same order and none cut off by [max_rows]: the
    header is the five address columns and the row of a record holds its
    name, building, street, borough and zip code. *)
Theorem print_table_rows {AS : ArgSort} (DF : DataFrame) value :
  print_table DF value
  = Table "output-table"
      (Tr [Th "DBA"; Th "BUILDING"; Th "STREET"; Th "BORO"; Th "ZIPCODE"]
       :: ((λ r, Tr [Td (PyStr (DBA r)); Td (PyStr (BUILDING r));
                     Td (PyStr (STREET r)); Td (PyStr (BORO r));
                     Td (from_option PyFloat PyNaN (ZIPCODE r))])
             <$> get_top_N DF value 10)).
Proof. apply print_table_eq. Qed.

(** X16: when [plot_map] returns a figure, its only trace has one marker for
    each record of [get_top_N] with N = 10, in the same order: the text is the
    restaurant's name and the position is what [get_lat_lon] returns for the
    record, also when that position is absent; there are at most ten
    markers. *)
Theorem plot_map_markers {AS : ArgSort} geocode iplot token restos cuisine_type
    fig :
  plot_map geocode iplot token restos cuisine_type = Ok fig →
  ∃ trace,
    data fig = [trace]
    ∧ trace_text trace = DBA <$> get_top_N restos cuisine_type 10
    ∧ (length (trace_text trace) ≤ 10)%nat
    ∧ ∀ (i : nat) resto,
        get_top_N restos cuisine_type 10 !! i = Some resto →
        ∃ p, get_lat_lon geocode resto = Ok p
             ∧ trace_lat trace !! i = Some (lat p)
             ∧ trace_lon trace !! i = Some (lon p).
Proof.
  intros (lat_lons & trace & Hfind & Hdata & Hlon & Hlat & Htext & _ & _)
    %plot_map_inv.
  exists trace. rewrite Htext, Hlat, Hlon.
  rewrite (find_lat_lon_names _ _ _ Hfind). split_and!; [done..| |].
  - rewrite length_fmap. apply (get_top_N_kw_at_most_ten restos (Some cuisine_type)).
  - intros i resto Hi. apply find_lat_lon_Forall2 in Hfind.
    destruct (Forall2_lookup_l _ _ _ _ _ Hfind Hi) as (p & Hp & Hget).
    exists p. by rewrite !list_lookup_fmap, Hp.
Qed.

Lemma plot_map_markers_witness :
  ∃ fig trace,
    plot_map (AS:=stable_argsort) two_match_service notebook_iplot "token"
      [example_resto] "Thai" = Ok fig
    ∧ data fig = [trace]
    ∧ trace_text trace = ["THAI HOUSE"].
Proof.
  destruct (plot_map (AS:=stable_argsort) two_match_service notebook_iplot
              "token" [example_resto] "Thai") as [fig|e] eqn:Hfig;
    [|by vm_compute in Hfig].
  destruct (plot_map_markers (AS:=stable_argsort) _ _ _ _ _ _ Hfig)
    as (trace & Hdata & Htext & _).
  exists fig, trace. split_and!; [done..|].
  rewrite Htext. by vm_compute.
Defined.

(** X17: if one of the records [get_top_N] selects has no zip code,
    [plot_map] returns no figure: it raises. *)
Theorem plot_map_missing_zip {AS : ArgSort} geocode iplot token restos
    cuisine_type resto :
  resto ∈ get_top_N restos cuisine_type 10 → ZIPCODE resto = None →
  ∃ e, plot_map geocode iplot token restos cuisine_type = Raise e.
Proof.
  intros Hin Hzip.
  destruct (find_lat_lon_no_zip geocode _ _ Hin Hzip) as [e He].
  exists e. by apply plot_map_raises.
Qed.

Lemma plot_map_missing_zip_witness :
  ∃ e, plot_map (AS:=stable_argsort) two_match_service notebook_iplot "token"
         scenario_table "Thai" = Raise e.
Proof.
  apply (plot_map_missing_zip (AS:=stable_argsort) two_match_service
           notebook_iplot "token" scenario_table "Thai"
           (scenario_record 1 "Thai" "B" 9 "2023-02-01")).
  - vm_compute. by left.
  - reflexivity.
Defined.

(** X18: the map and the table of one selection show the same restaurants in
    the same order: when [plot_selection] returns a figure, the texts of its
    markers are the names in the first cells of the table's rows. *)
Theorem map_and_table_agree {AS : ArgSort} geocode iplot token (DF : DataFrame)
    value fig :
  plot_selection geocode iplot token DF value = Ok fig →
  ∃ trace header body,
    data fig = [trace]
    ∧ print_table DF value = Table "output-table" (header :: body)
    ∧ Forall2 (λ text tr, ∃ cells, tr = Tr (Td (PyStr text) :: cells))
        (trace_text trace) body.
Proof.
  intros (lat_lons & trace & Hfind & Hdata & _ & _ & Htext & _)%plot_map_inv.
  exists trace. eexists _, _. split; [done|].
  split; [apply print_table_eq|].
  rewrite Htext, (find_lat_lon_names _ _ _ Hfind).
  apply Forall2_fmap, Forall_Forall2_diag, Forall_true.
  intros r. by eexists.
Qed.

Lemma map_and_table_agree_witness :
  ∃ fig, plot_selection (AS:=stable_argsort) two_match_service notebook_iplot
           "token" [example_resto] "Thai" = Ok fig
         ∧ ∃ trace header body,
             data fig = [trace]
             ∧ print_table (AS:=stable_argsort) [example_resto] "Thai"
               = Table "output-table" (header :: body)
             ∧ Forall2 (λ text tr, ∃ cells, tr = Tr (Td (PyStr text) :: cells))
                 (trace_text trace) body.
Proof.
  destruct (plot_selection (AS:=stable_argsort) two_match_service
              notebook_iplot "token" [example_resto] "Thai") as [fig|e] eqn:Hfig;
    [|by vm_compute in Hfig].
  exists fig. split; [done|].
  exact (map_and_table_agree (AS:=stable_argsort) _ _ _ _ _ _ Hfig).
Defined.

(** X19: for a cuisine that no record of the table has, the table is the
    header alone, and the map callback builds a figure without markers and
    hands it to [iplot]: it returns that figure when [iplot] returns and
    raises what [iplot] raises.  The geocoding service is not consulted, so
    this holds whatever the service does. *)
Theorem unknown_cuisine_presented {AS : ArgSort} geocode iplot token
    (DF : DataFrame) value :
  (∀ r, r ∈ DF → CUISINE_DESCRIPTION r ≠ value) →
  print_table DF value
  = Table "output-table"
      [Tr [Th "DBA"; Th "BUILDING"; Th "STREET"; Th "BORO"; Th "ZIPCODE"]]
  ∧ ∃ fig trace,
      plot_selection geocode iplot token DF value
      = (_ ← iplot fig false; Ok fig)
      ∧ data fig = [trace]
      ∧ trace_lon trace = [] ∧ trace_lat trace = [] ∧ trace_text trace = [].
Proof.
  intros Hnone.
  assert (get_top_N DF value 10 = []) as Hempty.
  { apply get_top_N_none_qualify. intros r Hr [_ Hc]. by destruct (Hnone r Hr). }
  split.
  - rewrite print_table_eq, Hempty. done.
  - destruct (plot_map_returns geocode iplot token DF value [])
      as (fig & trace & Hfig & Hdata & Hlon & Hlat & Htext).
    { by rewrite Hempty. }
    by exists fig, trace.
Qed.

Lemma unknown_cuisine_presented_witness :
  print_table (AS:=stable_argsort) scenario_table "Sushi"
  = Table "output-table"
      [Tr [Th "DBA"; Th "BUILDING"; Th "STREET"; Th "BORO"; Th "ZIPCODE"]]
  ∧ plot_selection (AS:=stable_argsort) (λ _, Raise ServiceError)
      no_ipython_iplot "token" scenario_table "Sushi" = Raise ImportError.
Proof.
  destruct (unknown_cuisine_presented (AS:=stable_argsort)
              (λ _, Raise ServiceError) no_ipython_iplot "token"
              scenario_table "Sushi") as (Htable & fig & trace & Hmap & _).
  - intros r Hr.
    repeat (apply elem_of_cons in Hr as [->|Hr]; [discriminate|]).
    by apply elem_of_nil in Hr.
  - split; [exact Htable|]. by rewrite Hmap.
Defined.

(** X20: where [iplot] raises on every figure, as it does where IPython
    cannot be imported, [plot_map] returns no figure for any table and
    cuisine: it raises, whatever the geocoding service answers. *)
Theorem plot_map_needs_iplot {AS : ArgSort} geocode iplot token restos
    cuisine_type :
  (∀ fig validate, ∃ e, iplot fig validate = Raise e) →
  ∃ e, plot_map geocode iplot token restos cuisine_type = Raise e.
Proof.
  intros Hraise.
  destruct (find_lat_lon geocode (get_top_N restos cuisine_type 10))
    as [lat_lons|e] eqn:Hfind.
  - destruct (plot_map_returns geocode iplot token restos cuisine_type lat_lons
                Hfind) as (fig & trace & -> & _).
    destruct (Hraise fig false) as [e ->]. by exists e.
  - exists e. by apply plot_map_raises.
Qed.

Lemma plot_map_needs_iplot_witness :
  ∃ e, plot_map (AS:=stable_argsort) two_match_service no_ipython_iplot
         "token" [example_resto] "Thai" = Raise e.
Proof.
  apply (plot_map_needs_iplot (AS:=stable_argsort) two_match_service
           no_ipython_iplot "token" [example_resto] "Thai").
  intros fig validate. by exists ImportError.
Defined.

(** X21: no restaurant identifier occurs twice in the result of [get_top_N];
    every record of the result is a qualifying record of the table whose
    ['GRADE DATE'] cell, compared as text, is the greatest among the
    qualifying records of the same restaurant (a missing cell being the
    least); and on the three records of the specification's scenario, whose
    dates are written year-month-day, the result for "Thai" and N = 10 is
    exactly the record id = 1, score = 9. *)
Theorem get_top_N_keeps_greatest_date_cell {AS : ArgSort} :
  (∀ restos cuisine_type N, NoDup (CAMIS <$> get_top_N restos cuisine_type N))
  ∧ (∀ restos cuisine_type N r,
       r ∈ get_top_N restos cuisine_type N →
       r ∈ restos ∧ qualifies cuisine_type r ∧
       ∀ r', r' ∈ restos → qualifies cuisine_type r' → CAMIS r' = CAMIS r →
             sorts_no_later (GRADE_DATE r) (GRADE_DATE r'))
  ∧ get_top_N scenario_table "Thai" 10 = [scenario_record 1 "Thai" "B" 9 "2023-02-01"].
Proof.
  split_and!.
  - apply get_top_N_NoDup.
  - intros restos c N r Hr.
    destruct (get_top_N_qualifies _ _ _ _ Hr) as [Hq Hin].
    split_and!; [done..|]. intros r'.
    by apply candidate_greatest_date_cell, (get_top_N_candidate _ _ N).
  - set (old := scenario_record 1 "Thai" "A" 5 "2023-01-01").
    set (new := scenario_record 1 "Thai" "B" 9 "2023-02-01").
    assert (∀ r, r ∈ candidates scenario_table "Thai" → r = new) as Hall.
    { intros r Hr. pose proof (candidate_qualifies _ _ _ Hr) as Hq.
      change (r ∈ [old; new]) in Hq.
      apply elem_of_cons in Hq as [->|Hq];
        [|by apply list_elem_of_singleton in Hq].
      exfalso.
      assert (sorts_no_later (GRADE_DATE old) (GRADE_DATE new)) as Hrec.
      { eapply candidate_greatest_date_cell; [exact Hr| |by_decide|done].
        right. by left. }
      vm_compute in Hrec. discriminate. }
    assert (candidates scenario_table "Thai" = [new]) as Hcand.
    { apply (singleton_of_constant CAMIS); [|done|apply candidates_NoDup].
      intros Hnil.
      assert (CAMIS new ∈ CAMIS <$> candidates scenario_table "Thai") as Hin.
      { apply candidates_cover; [right; by left|by_decide]. }
      rewrite Hnil in Hin. by apply elem_of_nil in Hin. }
    rewrite get_top_N_all by (rewrite Hcand; simpl; lia).
    apply Permutation_singleton_r. rewrite sort_values_perm. by rewrite Hcand.
Qed.
